(** * A shallow embedding of runtime/mcentral.go (Go 1.14): the central
    span cache of one size class, with cacheSpan, uncacheSpan, freeSpan
    and grow.

    Modelling choices:
    - spans live in a store [gmap nat mspan] indexed by a span id (the
      [*mspan] pointer); the two mSpanLists hold span ids;
    - fixed-width integers are [Z] with their wrap-around written out
      ([u32] for sweepgen, [u64] for uintptr/uint64, [i64] for int/int64);
    - code runs in a state-and-error monad [M]; [throw] aborts the whole
      computation (no state survives a throw);
    - lock/unlock and the list operations append events to a ghost
      [trace], so that orderings ("under the lock", "after the list
      operations") can be stated;
    - runtime code outside this file that mcentral.go calls (sweeping,
      the page heap's allocator, free-index search, bitmap refill) is a
      Section variable: every result holds for every behaviour of it. *)

From Stdlib Require Import ZArith Lia.
From stdpp Require Import base gmap list strings.

Local Open Scope Z_scope.

(** ** Machine integers *)

Definition u32 (x : Z) : Z := x mod 2 ^ 32.
Definition u64 (x : Z) : Z := x mod 2 ^ 64.
Definition i64 (x : Z) : Z :=
  let y := x mod 2 ^ 64 in if (2 ^ 63 <=? y)%Z then (y - 2 ^ 64)%Z else y.

Definition _PageShift : Z := 13.
Definition _PageSize : Z := 8192.

(** ** The span record (the fields of mspan used by mcentral.go) *)

Record mspan := MSpan {
  startAddr : Z;        (* s.base() *)
  limit : Z;
  nelems : Z;           (* uintptr *)
  allocCount : Z;       (* uint16 *)
  freeindex : Z;        (* uintptr *)
  allocCache : Z;       (* uint64 *)
  elemsize : Z;         (* uintptr *)
  sweepgen : Z;         (* uint32 *)
  needzero : Z;         (* uint8 *)
  divShift : Z;
  divShift2 : Z;
  divMul : Z
}.

Definition set_sweepgen (s : mspan) (g : Z) : mspan :=
  {| startAddr := startAddr s; limit := limit s; nelems := nelems s;
     allocCount := allocCount s; freeindex := freeindex s;
     allocCache := allocCache s; elemsize := elemsize s; sweepgen := g;
     needzero := needzero s; divShift := divShift s;
     divShift2 := divShift2 s; divMul := divMul s |}.

Definition set_needzero (s : mspan) (z : Z) : mspan :=
  {| startAddr := startAddr s; limit := limit s; nelems := nelems s;
     allocCount := allocCount s; freeindex := freeindex s;
     allocCache := allocCache s; elemsize := elemsize s;
     sweepgen := sweepgen s; needzero := z; divShift := divShift s;
     divShift2 := divShift2 s; divMul := divMul s |}.

Definition set_freeindex (s : mspan) (i : Z) : mspan :=
  {| startAddr := startAddr s; limit := limit s; nelems := nelems s;
     allocCount := allocCount s; freeindex := i;
     allocCache := allocCache s; elemsize := elemsize s;
     sweepgen := sweepgen s; needzero := needzero s;
     divShift := divShift s; divShift2 := divShift2 s; divMul := divMul s |}.

Definition set_allocCache (s : mspan) (c : Z) : mspan :=
  {| startAddr := startAddr s; limit := limit s; nelems := nelems s;
     allocCount := allocCount s; freeindex := freeindex s;
     allocCache := c; elemsize := elemsize s; sweepgen := sweepgen s;
     needzero := needzero s; divShift := divShift s;
     divShift2 := divShift2 s; divMul := divMul s |}.

Definition set_limit (s : mspan) (l : Z) : mspan :=
  {| startAddr := startAddr s; limit := l; nelems := nelems s;
     allocCount := allocCount s; freeindex := freeindex s;
     allocCache := allocCache s; elemsize := elemsize s;
     sweepgen := sweepgen s; needzero := needzero s;
     divShift := divShift s; divShift2 := divShift2 s; divMul := divMul s |}.

(** ** The mcentral and the heap-wide values it reads and writes *)

Inductive listname := NonemptyL | EmptyL.

Inductive event :=
  | ELock
  | EUnlock
  | ERemove (l : listname) (sid : nat)
  | EInsert (l : listname) (sid : nat)
  | EInsertBack (l : listname) (sid : nat)
  | ESweep (sid : nat) (preserve : bool)
  | EHeapFree (sid : nat).

Record mcstate := MCState {
  spans : gmap nat mspan;     (* the span objects *)
  nonempty : list nat;        (* c.nonempty *)
  empty : list nat;           (* c.empty *)
  nmalloc : Z;                (* c.nmalloc, uint64 *)
  spanclass : Z;              (* c.spanclass *)
  heap_live : Z;              (* memstats.heap_live, uint64 *)
  mheap_sweepgen : Z;         (* mheap_.sweepgen, uint32 *)
  trace : list event          (* ghost: the order of lock, list and sweep events *)
}.

Definition with_spans (st : mcstate) (m : gmap nat mspan) : mcstate :=
  MCState m (nonempty st) (empty st) (nmalloc st) (spanclass st)
    (heap_live st) (mheap_sweepgen st) (trace st).
Definition with_nonempty (st : mcstate) (l : list nat) : mcstate :=
  MCState (spans st) l (empty st) (nmalloc st) (spanclass st)
    (heap_live st) (mheap_sweepgen st) (trace st).
Definition with_empty (st : mcstate) (l : list nat) : mcstate :=
  MCState (spans st) (nonempty st) l (nmalloc st) (spanclass st)
    (heap_live st) (mheap_sweepgen st) (trace st).
Definition with_nmalloc (st : mcstate) (x : Z) : mcstate :=
  MCState (spans st) (nonempty st) (empty st) x (spanclass st)
    (heap_live st) (mheap_sweepgen st) (trace st).
Definition with_heap_live (st : mcstate) (x : Z) : mcstate :=
  MCState (spans st) (nonempty st) (empty st) (nmalloc st) (spanclass st)
    x (mheap_sweepgen st) (trace st).
Definition with_trace (st : mcstate) (t : list event) : mcstate :=
  MCState (spans st) (nonempty st) (empty st) (nmalloc st) (spanclass st)
    (heap_live st) (mheap_sweepgen st) t.

Definition get_list (st : mcstate) (l : listname) : list nat :=
  match l with NonemptyL => nonempty st | EmptyL => empty st end.
Definition with_list (st : mcstate) (l : listname) (xs : list nat) : mcstate :=
  match l with NonemptyL => with_nonempty st xs | EmptyL => with_empty st xs end.

(** ** The monad: state passing with fatal errors *)

Inductive res (A : Type) :=
  | Ok (a : A) (st : mcstate)
  | Throw (msg : string)
  | NoFuel.
Arguments Ok {A} a st.
Arguments Throw {A} msg.
Arguments NoFuel {A}.

Definition M (A : Type) : Type := mcstate -> res A.

Definition bind {A B} (m : M A) (f : A -> M B) : M B := fun st =>
  match m st with
  | Ok a st' => f a st'
  | Throw e => Throw e
  | NoFuel => NoFuel
  end.

#[global] Instance M_ret : MRet M := fun A a st => Ok a st.
#[global] Instance M_bind : MBind M := fun A B f m => bind m f.

Notation "'let*' x ':=' m 'in' k" := (bind m (fun x => k))
  (at level 200, x name, m at level 100, k at level 200).
Notation "'let*' ' p ':=' m 'in' k" :=
  (bind m (fun v => match v with p => k end))
  (at level 200, p pattern, m at level 100, k at level 200).

(** [throw] of the Go runtime: a fatal error. *)
Definition throw {A} (msg : string) : M A := fun _ => Throw msg.
Definition gets {A} (f : mcstate -> A) : M A := fun st => Ok (f st) st.
Definition modify (f : mcstate -> mcstate) : M unit := fun st => Ok tt (f st).
Definition emit (e : event) : M unit :=
  modify (fun st => with_trace st (trace st ++ [e])).

Definition lock : M unit := emit ELock.
Definition unlock : M unit := emit EUnlock.

(** Dereferencing a span pointer; an id with no span is a nil dereference. *)
Definition get_span (sid : nat) : M mspan := fun st =>
  match spans st !! sid with
  | Some s => Ok s st
  | None => Throw "invalid memory address or nil pointer dereference"
  end.
Definition put_span (sid : nat) (s : mspan) : M unit :=
  modify (fun st => with_spans st (<[sid := s]> (spans st))).

(** Atomic load, store and compare-and-swap of s.sweepgen. *)
Definition load_sweepgen (sid : nat) : M Z := let* s := get_span sid in mret (sweepgen s).
Definition store_sweepgen (sid : nat) (g : Z) : M unit :=
  let* s := get_span sid in put_span sid (set_sweepgen s g).

(** The effect of one atomic.Cas on a cell holding [cur]: success flag and
    the new content. *)
Definition cas_val (cur old new : Z) : bool * Z :=
  if (cur =? old)%Z then (true, new) else (false, cur).

Definition cas_sweepgen (sid : nat) (old new : Z) : M bool :=
  let* s := get_span sid in
  let '(ok, g) := cas_val (sweepgen s) old new in
  put_span sid (set_sweepgen s g);; mret ok.

(** ** mSpanList *)

(** Modelled from the spec: the mSpanList operations (mheap.go, not part
    of this file).  A doubly linked list with [insert] at the front,
    [insertBack] at the back and [remove] by reference; a span is linked
    in at most one list (§3, invariant 1), so linking a span that is
    already linked, or removing a span from a list that does not hold
    it, is a fatal error. *)
Fixpoint remove_id (x : nat) (l : list nat) : list nat :=
  match l with
  | [] => []
  | y :: r => if decide (x = y) then r else y :: remove_id x r
  end.

Definition inList (sid : nat) : M bool := fun st =>
  Ok (bool_decide (sid ∈ nonempty st) || bool_decide (sid ∈ empty st)) st.

Definition list_remove (l : listname) (sid : nat) : M unit := fun st =>
  if bool_decide (sid ∈ get_list st l)
  then Ok tt (with_trace (with_list st l (remove_id sid (get_list st l)))
                (trace st ++ [ERemove l sid]))
  else Throw "mSpanList.remove".

Definition list_insert (l : listname) (sid : nat) : M unit :=
  let* il := inList sid in
  if il then throw "mSpanList.insert"
  else modify (fun st => with_trace (with_list st l (sid :: get_list st l))
                           (trace st ++ [EInsert l sid])).

Definition list_insertBack (l : listname) (sid : nat) : M unit :=
  let* il := inList sid in
  if il then throw "mSpanList.insertBack"
  else modify (fun st => with_trace (with_list st l (get_list st l ++ [sid]))
                           (trace st ++ [EInsertBack l sid])).

(** Modelled from the spec: mheap_.freeSpan (mheap.go), which permanently
    returns a span's memory to the page heap (§6).  Only the hand-over is
    recorded. *)
Definition mheap_freeSpan (sid : nat) : M unit := emit (EHeapFree sid).

(** spanClass.sizeclass: [int8(sc >> 1)]. *)
Definition sizeclass (spc : Z) : Z := Z.shiftr spc 1.

(** ** The runtime code that mcentral.go calls but does not define *)

Record runtime_env := RuntimeEnv {
  class_to_allocnpages : Z -> Z;     (* sizeclasses.go *)
  class_to_size : Z -> Z;            (* sizeclasses.go *)
  deductSweepCredit : Z -> Z -> M unit;   (* mgcsweep.go *)
  mspan_sweep : bool -> nat -> M bool;    (* s.sweep(preserve), mgcsweep.go *)
  nextFreeIndex : nat -> M Z;             (* s.nextFreeIndex(), malloc.go *)
  refillAllocCache : mspan -> Z -> Z;     (* the new s.allocCache, mbitmap.go *)
  mheap_alloc : Z -> Z -> bool -> M (option nat);  (* mheap_.alloc *)
  initSpan : nat -> M unit                (* heapBitsForAddr(base).initSpan *)
}.

(** The decisions of the two scan loops of cacheSpan for one span, as a
    function of what the scanning thread observed: [g1] is the first read
    of s.sweepgen, [won] the outcome of the Cas (attempted only when
    [g1 = sg-2]), [g2] the second read (made only when the Cas was not
    won). *)
Inductive ne_action := NEClaim | NESkip | NETake.
Inductive em_action := EMClaim | EMSkip | EMStop.

Definition nonempty_action (sg g1 : Z) (won : bool) (g2 : Z) : ne_action :=
  if (g1 =? u32 (sg - 2)) && won then NEClaim
  else if g2 =? u32 (sg - 1) then NESkip
  else NETake.

Definition empty_action (sg g1 : Z) (won : bool) (g2 : Z) : em_action :=
  if (g1 =? u32 (sg - 2)) && won then EMClaim
  else if g2 =? u32 (sg - 1) then EMSkip
  else EMStop.

Inductive scan_res := Have (sid : nat) | Retry | Exhausted.

Section MCentral.

Variable E : runtime_env.

(** s.sweep(preserve), with its call recorded in the trace. *)
Definition sweep (preserve : bool) (sid : nat) : M bool :=
  emit (ESweep sid preserve);; mspan_sweep E preserve sid.

(** [s.sweepgen == sg-2 && atomic.Cas(&s.sweepgen, sg-2, sg-1)], then,
    when that is false, the re-read of s.sweepgen. *)
Definition observe (sg : Z) (sid : nat) : M (Z * bool * Z) :=
  let* g1 := load_sweepgen sid in
  let* won := (if g1 =? u32 (sg - 2)
               then cas_sweepgen sid (u32 (sg - 2)) (u32 (sg - 1))
               else mret false) in
  let* g2 := (if won then mret g1 else load_sweepgen sid) in
  mret (g1, won, g2).

(** The loop over c.nonempty (lines 80-97); [Some s] is [goto havespan]
    (the lock is released), [None] falls out of the loop (lock held). *)
Fixpoint scan_nonempty (sg : Z) (l : list nat) : M (option nat) :=
  match l with
  | [] => mret None
  | sid :: rest =>
      let* '(g1, won, g2) := observe sg sid in
      match nonempty_action sg g1 won g2 with
      | NEClaim =>
          list_remove NonemptyL sid;; list_insertBack EmptyL sid;; unlock;;
          sweep true sid;; mret (Some sid)
      | NESkip => scan_nonempty sg rest
      | NETake =>
          list_remove NonemptyL sid;; list_insertBack EmptyL sid;; unlock;;
          mret (Some sid)
      end
  end.

(** The loop over c.empty (lines 103-129). *)
Fixpoint scan_empty (sg : Z) (l : list nat) : M scan_res :=
  match l with
  | [] => mret Exhausted
  | sid :: rest =>
      let* '(g1, won, g2) := observe sg sid in
      match empty_action sg g1 won g2 with
      | EMClaim =>
          list_remove EmptyL sid;; list_insertBack EmptyL sid;; unlock;;
          sweep true sid;;
          let* freeIndex := nextFreeIndex E sid in
          let* s := get_span sid in
          if negb (freeIndex =? nelems s)
          then put_span sid (set_freeindex s freeIndex);; mret (Have sid)
          else lock;; mret Retry
      | EMSkip => scan_empty sg rest
      | EMStop => mret Exhausted
      end
  end.

(** mcentral.grow (lines 292-310). *)
Definition grow : M (option nat) :=
  let* spc := gets spanclass in
  let npages := u64 (class_to_allocnpages E (sizeclass spc)) in
  let size := u64 (class_to_size E (sizeclass spc)) in
  let* r := mheap_alloc E npages spc true in
  match r with
  | None => mret None
  | Some sid =>
      let* s := get_span sid in
      let n := Z.shiftr
                 (u64 (Z.shiftr (u64 (Z.shiftl npages _PageShift)) (divShift s)
                       * divMul s))
                 (divShift2 s) in
      put_span sid (set_limit s (u64 (startAddr s + u64 (size * n))));;
      initSpan E sid;;
      mret (Some sid)
  end.

(** From [retry:] to [havespan:] (lines 71-146), with the lock held on
    entry.  Each [goto retry] spends one unit of [fuel]. *)
Fixpoint acquire (fuel : nat) (sg : Z) : M (option nat) :=
  match fuel with
  | O => fun _ => NoFuel
  | S fuel' =>
      let* ne := gets nonempty in
      let* r := scan_nonempty sg ne in
      match r with
      | Some sid => mret (Some sid)
      | None =>
          let* em := gets empty in
          let* r2 := scan_empty sg em in
          match r2 with
          | Have sid => mret (Some sid)
          | Retry => acquire fuel' sg
          | Exhausted =>
              unlock;;
              let* g := grow in
              match g with
              | None => mret None
              | Some sid =>
                  lock;; list_insertBack EmptyL sid;; unlock;; mret (Some sid)
              end
          end
      end
  end.

(** [havespan:] (lines 153-183). *)
Definition havespan (spanBytes : Z) (sid : nat) : M (option nat) :=
  let* s := get_span sid in
  let n := i64 (i64 (nelems s) - allocCount s) in
  if (n =? 0) || (freeindex s =? nelems s) || (allocCount s =? nelems s)
  then throw "span has no free objects"
  else
    modify (fun st => with_nmalloc st (u64 (nmalloc st + n)));;
    let usedBytes := u64 (allocCount s * elemsize s) in
    modify (fun st => with_heap_live st
                        (u64 (heap_live st + (i64 spanBytes - i64 usedBytes))));;
    let freeByteBase := Z.ldiff (freeindex s) (64 - 1) in
    let whichByte := freeByteBase / 8 in
    let s1 := set_allocCache s (refillAllocCache E s whichByte) in
    put_span sid (set_allocCache s1 (Z.shiftr (allocCache s1) (freeindex s1 mod 64)));;
    mret (Some sid).

Definition spanBytes_of (spc : Z) : Z :=
  u64 (class_to_allocnpages E (sizeclass spc) * _PageSize).

(** mcentral.cacheSpan (lines 60-184). *)
Definition cacheSpan (fuel : nat) : M (option nat) :=
  let* spc := gets spanclass in
  let spanBytes := spanBytes_of spc in
  deductSweepCredit E spanBytes 0;;
  lock;;
  let* sg := gets mheap_sweepgen in
  let* r := acquire fuel sg in
  match r with
  | None => mret None
  | Some sid => havespan spanBytes sid
  end.

(** mcentral.uncacheSpan (lines 187-236). *)
Definition uncacheSpan (sid : nat) : M unit :=
  let* s := get_span sid in
  if allocCount s =? 0 then throw "uncaching span but s.allocCount == 0"
  else
    let* sg := gets mheap_sweepgen in
    let stale := sweepgen s =? u32 (sg + 1) in
    (if stale then store_sweepgen sid (u32 (sg - 1))
     else store_sweepgen sid sg);;
    let* s := get_span sid in
    let n := i64 (i64 (nelems s) - allocCount s) in
    (if 0 <? n
     then
       modify (fun st => with_nmalloc st (u64 (nmalloc st + i64 (- n))));;
       lock;;
       list_remove EmptyL sid;;
       list_insert NonemptyL sid;;
       (if negb stale
        then modify (fun st => with_heap_live st
                       (u64 (heap_live st + i64 (i64 (- n) * i64 (elemsize s)))))
        else mret tt);;
       unlock
     else mret tt);;
    if stale then (sweep false sid;; mret tt) else mret tt.

(** mcentral.freeSpan (lines 246-285). *)
Definition freeSpan (sid : nat) (preserve wasempty : bool) : M bool :=
  let* sg := gets mheap_sweepgen in
  let* s := get_span sid in
  if (sweepgen s =? u32 (sg + 1)) || (sweepgen s =? u32 (sg + 3))
  then throw "freeSpan given cached span"
  else
    put_span sid (set_needzero s 1);;
    if preserve
    then
      let* il := inList sid in
      if negb il then throw "can't preserve unlinked span"
      else
        let* g := gets mheap_sweepgen in
        store_sweepgen sid g;;
        mret false
    else
      lock;;
      (if wasempty
       then list_remove EmptyL sid;; list_insert NonemptyL sid
       else mret tt);;
      let* g := gets mheap_sweepgen in
      store_sweepgen sid g;;
      let* s := get_span sid in
      if negb (allocCount s =? 0)
      then unlock;; mret false
      else
        list_remove NonemptyL sid;;
        unlock;;
        mheap_freeSpan sid;;
        mret true.

End MCentral.

(** ** A concrete runtime for running the model *)

(** The first rows of Go 1.14's sizeclasses.go: classes 1-5 have object
    sizes 8, 16, 32, 48, 64 and one page per span. *)
Definition go_class_to_size (c : Z) : Z :=
  match c with 1 => 8 | 2 => 16 | 3 => 32 | 4 => 48 | 5 => 64 | _ => 0 end.
Definition go_class_to_allocnpages (c : Z) : Z :=
  match c with 1 | 2 | 3 | 4 | 5 => 1 | _ => 0 end.

(** A sweep that frees nothing and, like sweep's call of freeSpan with
    preserve set, stamps the current sweepgen. *)
Definition stamp_sweep (preserve : bool) (sid : nat) : M bool :=
  let* g := gets mheap_sweepgen in store_sweepgen sid g;; mret false.

Definition test_env : runtime_env :=
  RuntimeEnv go_class_to_allocnpages go_class_to_size
    (fun _ _ => mret tt) stamp_sweep
    (fun sid => let* s := get_span sid in mret (freeindex s))
    (fun _ _ => 0) (fun _ _ _ => mret None) (fun _ => mret tt).

(** The same runtime, except that the page heap always hands out span 1. *)
Definition grow_env : runtime_env :=
  RuntimeEnv go_class_to_allocnpages go_class_to_size
    (fun _ _ => mret tt) stamp_sweep
    (fun sid => let* s := get_span sid in mret (freeindex s))
    (fun _ _ => 0) (fun _ _ _ => mret (Some 1%nat)) (fun _ => mret tt).

(** A span of size class 4 (48-byte objects, 170 per 8192-byte page). *)
Definition span48 (alloc fi sg : Z) : mspan :=
  {| startAddr := 0; limit := 170 * 48; nelems := 170; allocCount := alloc;
     freeindex := fi; allocCache := 0; elemsize := 48; sweepgen := sg;
     needzero := 0; divShift := 0; divShift2 := 0; divMul := 0 |}.

(** An mcentral of span class 8 (size class 4) at sweepgen 4, holding
    span 1 at the head of its nonempty list. *)
Definition st48 (alloc fi sg : Z) : mcstate :=
  {| spans := {[ 1%nat := span48 alloc fi sg ]}; nonempty := [1%nat];
     empty := []; nmalloc := 0; spanclass := 8; heap_live := 1000;
     mheap_sweepgen := 4; trace := [] |}.

(** The same mcentral with span 1 handed to an mcache: it is in the empty
    list, and nmalloc and heap_live carry cacheSpan's estimates. *)
Definition st48e (alloc fi sg : Z) : mcstate :=
  {| spans := {[ 1%nat := span48 alloc fi sg ]}; nonempty := [];
     empty := [1%nat]; nmalloc := 169; spanclass := 8; heap_live := 9144;
     mheap_sweepgen := 4; trace := [] |}.

(** ** Racing claims of one span *)

(** The atomic operations that several threads make on one span's
    s.sweepgen while they scan c.nonempty or c.empty in sweep cycle [sg]:
    [RCas t] is thread [t]'s [atomic.Cas(&s.sweepgen, sg-2, sg-1)], made
    after it read sg-2; [RStore v] is any other write, such as the store of
    sweepgen = sg that ends the sweep of the thread that won. *)
Inductive race_op := RCas (tid : nat) | RStore (v : Z).

(** The outcome of each Cas, in the order the memory system serialises
    them: the thread, whether its Cas succeeded, and the value s.sweepgen
    holds right after it (what the re-read [s.sweepgen == sg-1] of a thread
    that lost sees when nothing is written in between). *)
Fixpoint run_race (sg cell : Z) (ops : list race_op) : list (nat * bool * Z) :=
  match ops with
  | [] => []
  | RCas t :: rest =>
      let '(ok, cell') := cas_val cell (u32 (sg - 2)) (u32 (sg - 1)) in
      (t, ok, cell') :: run_race sg cell' rest
  | RStore v :: rest => run_race sg v rest
  end.

(** The threads whose Cas succeeded. *)
Fixpoint race_winners (outs : list (nat * bool * Z)) : list nat :=
  match outs with
  | [] => []
  | (t, true, _) :: rest => t :: race_winners rest
  | (_, false, _) :: rest => race_winners rest
  end.

(** No write puts sweepgen back to sg-2: within a cycle, sweepgen only
    moves forward (sg-2, then sg-1, then sg). *)
Definition no_reset (sg : Z) (ops : list race_op) : bool :=
  forallb (fun o => match o with
                    | RStore v => negb (v =? u32 (sg - 2))
                    | RCas _ => true
                    end) ops.

(** ** Well-formed states *)

(** The range facts the Go types and the runtime keep for a span. *)
Definition span_wf (s : mspan) : Prop :=
  0 <= allocCount s <= nelems s /\ nelems s < 2 ^ 31 /\
  0 <= elemsize s < 2 ^ 32 /\ 0 <= freeindex s <= nelems s.

(** The range and linkage facts of an mcentral: the uint64 counters are
    in range and no span is linked twice (§3, invariant 1). *)
Definition mc_wf (st : mcstate) : Prop :=
  0 <= heap_live st < 2 ^ 64 /\ 0 <= nmalloc st < 2 ^ 64 /\
  NoDup (nonempty st ++ empty st).

(** The state cacheSpan is in when it reaches [havespan:] with span [sid]:
    after deductSweepCredit, the lock, and the scans (or grow). *)
Definition reaches_havespan (E : runtime_env) (fuel : nat) (st : mcstate)
    (sid : nat) (st_h : mcstate) : Prop :=
  exists st1,
    deductSweepCredit E (spanBytes_of E (spanclass st)) 0 st = Ok tt st1 /\
    acquire E fuel (mheap_sweepgen st1) (with_trace st1 (trace st1 ++ [ELock]))
      = Ok (Some sid) st_h.

(** ** mcentral.init *)

(** mcentral.init (lines 43-47): set the span class and make both lists
    empty (mSpanList.init, mheap.go, sets first = last = nil). *)
Definition mcentral_init (spc : Z) : M unit :=
  modify (fun st => MCState (spans st) [] [] (nmalloc st) spc (heap_live st)
                            (mheap_sweepgen st) (trace st)).

(** ** The discipline of c.lock *)

(** The state of c.lock after the events [t], starting [held] or not;
    [None] when an event locks the lock while it is held or unlocks it
    while it is free. *)
Fixpoint lock_walk (held : bool) (t : list event) : option bool :=
  match t with
  | [] => Some held
  | ELock :: t' => if held then None else lock_walk true t'
  | EUnlock :: t' => if held then lock_walk false t' else None
  | _ :: t' => lock_walk held t'
  end.

(** [m], run with c.lock [held], only appends to the trace, never locks
    the lock twice or unlocks it while free, and when it returns [a] the
    lock is held exactly when [post a]. *)
Definition lock_spec {A} (held : bool) (m : M A) (post : A -> bool) : Prop :=
  forall st a st', m st = Ok a st' ->
    exists t, trace st' = trace st ++ t /\ lock_walk held t = Some (post a).

(** The runtime functions mcentral.go calls are all called with c.lock
    free; they may take and release it (sweep's call of freeSpan does),
    but leave it free. *)
Definition env_locks (E : runtime_env) : Prop :=
  (forall x y, lock_spec false (deductSweepCredit E x y) (fun _ => false)) /\
  (forall p sid, lock_spec false (mspan_sweep E p sid) (fun _ => false)) /\
  (forall sid, lock_spec false (nextFreeIndex E sid) (fun _ => false)) /\
  (forall np spc z, lock_spec false (mheap_alloc E np spc z) (fun _ => false)) /\
  (forall sid, lock_spec false (initSpan E sid) (fun _ => false)).

(** [m] leaves both lists of c as they are. *)
Definition keeps_lists {A} (m : M A) : Prop :=
  forall st a st', m st = Ok a st' ->
    nonempty st' = nonempty st /\ empty st' = empty st.

(** ** The BSD memory layer (mem_bsd.go, lines 312-400 of mcentral.go) *)

(** The calls the layer makes: the system calls, and mSysStatInc and
    mSysStatDec (mstats.go) on a statistic given by a nil-able pointer. *)
Inductive oscall :=
  | CMmap (v n prot flags fd off : Z)
  | CMunmap (v n : Z)
  | CMadvise (v n advice : Z)
  | CStatInc (sysStat : option nat) (n : Z)
  | CStatDec (sysStat : option nat) (n : Z).

(** The target's constants (defs_*.go) and the kernel's answer
    (p, err) to mmap(v, n, prot, flags, fd, off). *)
Record os_env := OSEnv {
  goos : string;
  _PROT_NONE : Z;
  _PROT_READ : Z;
  _PROT_WRITE : Z;
  _MAP_ANON : Z;
  _MAP_PRIVATE : Z;
  _MAP_FIXED : Z;
  _MADV_FREE : Z;
  mmap_result : Z -> Z -> Z -> Z -> Z -> Z -> Z * Z
}.

(** A computation of the layer: the calls made so far, and throw. *)
Inductive osres (A : Type) :=
  | OOk (a : A) (log : list oscall)
  | OThrow (msg : string).
Arguments OOk {A} a log.
Arguments OThrow {A} msg.

Definition OS (A : Type) : Type := list oscall -> osres A.

Definition os_ret {A} (a : A) : OS A := fun log => OOk a log.
Definition os_bind {A B} (m : OS A) (f : A -> OS B) : OS B := fun log =>
  match m log with
  | OOk a log' => f a log'
  | OThrow e => OThrow e
  end.
Definition os_throw {A} (msg : string) : OS A := fun _ => OThrow msg.
Definition os_call (c : oscall) : OS unit := fun log => OOk tt (log ++ [c]).

Notation "'let%' x ':=' m 'in' k" := (os_bind m (fun x => k))
  (at level 200, x name, m at level 100, k at level 200).
Notation "'let%' ' p ':=' m 'in' k" :=
  (os_bind m (fun v => match v with p => k end))
  (at level 200, p pattern, m at level 100, k at level 200).

Definition _sunosMAP_NORESERVE : Z := 64.   (* 0x40 *)
Definition _sunosEAGAIN : Z := 11.
Definition _ENOMEM : Z := 12.

Section MemBSD.

Variable O : os_env.

Definition mmap (v n prot flags fd off : Z) : OS (Z * Z) :=
  let% _ := os_call (CMmap v n prot flags fd off) in
  os_ret (mmap_result O v n prot flags fd off).

Definition on_solaris : bool :=
  String.eqb (goos O) "solaris" || String.eqb (goos O) "illumos".

Definition sysAlloc (n : Z) (sysStat : option nat) : OS Z :=
  let% '(v, err) := mmap 0 n (Z.lor (_PROT_READ O) (_PROT_WRITE O))
                      (Z.lor (_MAP_ANON O) (_MAP_PRIVATE O)) (-1) 0 in
  if negb (err =? 0) then os_ret 0
  else
    let% _ := os_call (CStatInc sysStat n) in
    os_ret v.

Definition sysUnused (v n : Z) : OS unit := os_call (CMadvise v n (_MADV_FREE O)).

Definition sysUsed (v n : Z) : OS unit := os_ret tt.

Definition sysHugePage (v n : Z) : OS unit := os_ret tt.

Definition sysFree (v n : Z) (sysStat : option nat) : OS unit :=
  let% _ := os_call (CStatDec sysStat n) in
  os_call (CMunmap v n).

Definition sysFault (v n : Z) : OS unit :=
  let% _ := mmap v n (_PROT_NONE O)
              (Z.lor (Z.lor (_MAP_ANON O) (_MAP_PRIVATE O)) (_MAP_FIXED O)) (-1) 0 in
  os_ret tt.

Definition sysReserve (v n : Z) : OS Z :=
  let flags0 := Z.lor (_MAP_ANON O) (_MAP_PRIVATE O) in
  let flags := if on_solaris then Z.lor flags0 _sunosMAP_NORESERVE else flags0 in
  let% '(p, err) := mmap v n (_PROT_NONE O) flags (-1) 0 in
  if negb (err =? 0) then os_ret 0
  else os_ret p.

Definition sysMap (v n : Z) (sysStat : option nat) : OS unit :=
  let% _ := os_call (CStatInc sysStat n) in
  let% '(p, err) := mmap v n (Z.lor (_PROT_READ O) (_PROT_WRITE O))
                      (Z.lor (Z.lor (_MAP_ANON O) (_MAP_FIXED O)) (_MAP_PRIVATE O))
                      (-1) 0 in
  if (err =? _ENOMEM) || (on_solaris && (err =? _sunosEAGAIN))
  then os_throw "runtime: out of memory"
  else if negb (p =? v) || negb (err =? 0)
  then os_throw "runtime: cannot map pages in arena address space"
  else os_ret tt.

End MemBSD.

(** A target named [g] with FreeBSD/amd64's constants (PROT_NONE = 0,
    PROT_READ = 1, PROT_WRITE = 2, MAP_ANON = 0x1000, MAP_PRIVATE = 0x2,
    MAP_FIXED = 0x10, MADV_FREE = 5) whose kernel answers every mmap with
    [ans]. *)
Definition const_os (g : string) (ans : Z * Z) : os_env :=
  OSEnv g 0 1 2 4096 2 16 5 (fun _ _ _ _ _ _ => ans).

(** ** Proof tools *)

Ltac mc_unfold :=
  unfold list_remove, list_insert, list_insertBack, mheap_freeSpan, inList,
    load_sweepgen, store_sweepgen, cas_sweepgen, lock, unlock, emit,
    get_span, put_span, gets, modify, throw, mbind, M_bind, mret, M_ret, bind,
    get_list, with_list, with_spans, with_nonempty, with_empty, with_nmalloc,
    with_heap_live, with_trace in *.

(** Symbolic execution of a monadic computation in hypothesis [H]: case
    on every branch point, closing the branches that cannot produce [H]'s
    right-hand side. *)
Ltac mc_split :=
  match goal with
  | H : context [ match ?x with _ => _ end ] |- _ =>
      let E := fresh "E" in destruct x eqn:E
  end.

Ltac mc_run :=
  mc_unfold;
  repeat (first [ progress simplify_eq/= | progress simplify_map_eq | mc_split ]).

(** Normalise the boolean facts that [mc_run] leaves behind. *)
Ltac mc_bools :=
  repeat match goal with
  | H : (_ || _)%bool = true |- _ => apply orb_true_iff in H as [H|H]
  | H : (_ || _)%bool = false |- _ => apply orb_false_iff in H as [? H]
  | H : (_ && _)%bool = true |- _ => apply andb_true_iff in H as [? H]
  | H : (_ && _)%bool = false |- _ => apply andb_false_iff in H as [H|H]
  | H : negb _ = true |- _ => apply negb_true_iff in H
  | H : negb _ = false |- _ => apply negb_false_iff in H
  | H : bool_decide _ = true |- _ => apply bool_decide_eq_true in H
  | H : bool_decide _ = false |- _ => apply bool_decide_eq_false in H
  | H : (_ =? _)%Z = true |- _ => apply Z.eqb_eq in H
  | H : (_ =? _)%Z = false |- _ => apply Z.eqb_neq in H
  | H : (_ <? _)%Z = true |- _ => apply Z.ltb_lt in H
  | H : (_ <? _)%Z = false |- _ => apply Z.ltb_ge in H
  | H : (_ <=? _)%Z = true |- _ => apply Z.leb_le in H
  | H : (_ <=? _)%Z = false |- _ => apply Z.leb_gt in H
  end.

(** ** Facts about the list model *)

Lemma remove_id_subset (x y : nat) (l : list nat) :
  y ∈ remove_id x l -> y ∈ l.
Proof.
  induction l as [|z l IH]; simpl; [done|].
  case_decide; [set_solver|]. rewrite !elem_of_cons. naive_solver.
Qed.

Lemma remove_id_not_in (x : nat) (l : list nat) :
  NoDup l -> x ∉ remove_id x l.
Proof.
  induction l as [|z l IH]; simpl; intros Hnd; [set_solver|].
  apply NoDup_cons in Hnd as [Hz Hnd].
  case_decide; subst; [done|].
  rewrite elem_of_cons. intros [->|Hin]; [done|]. by apply IH.
Qed.

(** ** Fatal errors *)

(** Claim C6: uncacheSpan of a span with allocCount = 0 throws "uncaching
    span but s.allocCount == 0" before touching the lists or counters (a
    throw carries no state). *)
Theorem uncacheSpan_zero_alloc_throws (E : runtime_env) (sid : nat)
    (st : mcstate) (s : mspan) :
  spans st !! sid = Some s -> allocCount s = 0 ->
  uncacheSpan E sid st = Throw "uncaching span but s.allocCount == 0".
Proof.
  intros Hs H0. unfold uncacheSpan. mc_unfold. simpl.
  rewrite Hs. simpl. rewrite H0. reflexivity.
Qed.

(** Claim C7: freeSpan of a span cached in an mcache (sweepgen = sg+1 or
    sg+3) throws "freeSpan given cached span" before any write. *)
Theorem freeSpan_cached_throws (sid : nat) (preserve wasempty : bool)
    (st : mcstate) (s : mspan) :
  spans st !! sid = Some s ->
  sweepgen s = u32 (mheap_sweepgen st + 1) \/
  sweepgen s = u32 (mheap_sweepgen st + 3) ->
  freeSpan sid preserve wasempty st = Throw "freeSpan given cached span".
Proof.
  intros Hs Hc. unfold freeSpan. mc_unfold. simpl.
  rewrite Hs. simpl.
  destruct Hc as [Hc|Hc]; rewrite Hc, Z.eqb_refl; [reflexivity|].
  rewrite orb_true_r. reflexivity.
Qed.

(** ** freeSpan *)

(** Claim C10: every freeSpan call that completes leaves s.needzero = 1,
    whichever branch it takes (preserve, still allocated, or returned to
    the heap). *)
Theorem freeSpan_sets_needzero (sid : nat) (preserve wasempty : bool)
    (st st' : mcstate) (b : bool) :
  freeSpan sid preserve wasempty st = Ok b st' ->
  exists s', spans st' !! sid = Some s' /\ needzero s' = 1.
Proof.
  intros H. unfold freeSpan in H. mc_run.
  all: eexists; split; reflexivity.
Qed.

(** Claim C2 (as amended): freeSpan reports true exactly when preserve is
    false and the span has no allocated object.  With preserve it sets
    needzero, stamps the current sweepgen and leaves the lists alone.
    When it reports true the span is unlinked from both lists and handed
    to the heap once, after the lock is released.  Otherwise, without
    preserve, the span stays where the wasempty move put it. *)
Theorem freeSpan_spec (sid : nat) (preserve wasempty : bool)
    (st st' : mcstate) (s : mspan) (b : bool) :
  spans st !! sid = Some s ->
  NoDup (nonempty st ++ empty st) ->
  freeSpan sid preserve wasempty st = Ok b st' ->
  (b = true <-> preserve = false /\ allocCount s = 0) /\
  (preserve = true ->
     nonempty st' = nonempty st /\ empty st' = empty st /\
     trace st' = trace st /\
     spans st' = <[sid := set_sweepgen (set_needzero s 1) (mheap_sweepgen st)]>
                   (spans st)) /\
  (b = true ->
     (sid ∉ nonempty st') /\ (sid ∉ empty st') /\
     trace st' = trace st ++ ELock ::
       (if wasempty then [ERemove EmptyL sid; EInsert NonemptyL sid] else []) ++
       [ERemove NonemptyL sid; EUnlock; EHeapFree sid]) /\
  (preserve = false -> allocCount s <> 0 ->
     nonempty st' = (if wasempty then sid :: nonempty st else nonempty st) /\
     empty st' = (if wasempty then remove_id sid (empty st) else empty st)).
Proof.
  intros Hs Hnd H. unfold freeSpan in H. mc_run; mc_bools.
  all: simplify_map_eq.
  all: rewrite ?insert_insert_eq; repeat split; intros; simplify_eq;
       rewrite <-?app_assoc; try done; try lia.
  all: apply NoDup_app in Hnd as (Hn1 & Hdis & Hn2).
  - by apply remove_id_not_in.
  - by apply Hdis.
Qed.

(** ** uncacheSpan *)

Lemma i64_small (x : Z) : - 2 ^ 63 <= x < 2 ^ 63 -> i64 x = x.
Proof.
  intros Hx. unfold i64.
  destruct (Z.le_gt_cases 0 x) as [Hp|Hn].
  - rewrite Z.mod_small by lia. destruct (2 ^ 63 <=? x) eqn:E; lia.
  - rewrite <- (Z.mod_unique x (2 ^ 64) (-1) (x + 2 ^ 64)) by lia.
    destruct (2 ^ 63 <=? x + 2 ^ 64) eqn:E; lia.
Qed.

Lemma u64_small (x : Z) : 0 <= x < 2 ^ 64 -> u64 x = x.
Proof. intros Hx. unfold u64. by apply Z.mod_small. Qed.

(** The complete effect of uncacheSpan on a well-formed span linked in
    c.empty: [st_mid] is the state reached before the deferred sweep. *)
Lemma uncacheSpan_run (E : runtime_env) (sid : nat) (st : mcstate) (s : mspan) :
  spans st !! sid = Some s -> span_wf s -> 0 < allocCount s ->
  mc_wf st -> sid ∈ empty st ->
  let sg := mheap_sweepgen st in
  let stale := sweepgen s =? u32 (sg + 1) in
  let n := nelems s - allocCount s in
  exists st_mid,
    uncacheSpan E sid st =
      (if stale then bind (mspan_sweep E false sid) (fun _ => mret tt) st_mid
       else Ok tt st_mid) /\
    spans st_mid =
      <[sid := set_sweepgen s (if stale then u32 (sg - 1) else sg)]> (spans st) /\
    nonempty st_mid = (if 0 <? n then sid :: nonempty st else nonempty st) /\
    empty st_mid = (if 0 <? n then remove_id sid (empty st) else empty st) /\
    nmalloc st_mid = (if 0 <? n then u64 (nmalloc st - n) else nmalloc st) /\
    heap_live st_mid =
      (if (0 <? n) && negb stale then u64 (heap_live st - n * elemsize s)
       else heap_live st) /\
    trace st_mid = trace st ++
      (if 0 <? n then [ELock; ERemove EmptyL sid; EInsert NonemptyL sid; EUnlock]
       else []) ++
      (if stale then [ESweep sid false] else []).
Proof.
  intros Hs Hwf Ha Hmc Hin sg stale n.
  destruct Hwf as (Hac & Hne & Hes & Hfi).
  destruct Hmc as (Hhl & Hnm & Hnd).
  assert (Hd := Hnd). apply NoDup_app in Hd as (Hn1 & Hdis & Hn2).
  assert (Hnin : sid ∉ nonempty st) by (intros Hx; by apply (Hdis sid)).
  assert (Hrm : sid ∉ remove_id sid (empty st)) by (by apply remove_id_not_in).
  unfold uncacheSpan, sweep. mc_unfold. simpl. rewrite Hs. simpl.
  replace (allocCount s =? 0) with false by lia.
  unfold stale, sg, n.
  destruct (sweepgen s =? u32 (mheap_sweepgen st + 1)); simpl;
    simplify_map_eq;
    replace (i64 (i64 (nelems s) - allocCount s)) with (nelems s - allocCount s)
      by (rewrite (i64_small (nelems s)) by lia; rewrite i64_small; lia);
    destruct (0 <? nelems s - allocCount s) eqn:En; simpl.
  all: eexists.
  all: try (rewrite bool_decide_true by done; simpl;
            rewrite bool_decide_false by done;
            rewrite bool_decide_false by done; simpl).
  all: split; [reflexivity|]; simpl; rewrite <-?app_assoc, ?app_nil_r.
  all: repeat split; try done.
  1-2: rewrite (i64_small (- _)) by lia; f_equal; lia.
  rewrite (i64_small (- _)) by lia.
  rewrite (i64_small (elemsize s)) by lia.
  rewrite i64_small by nia. f_equal. lia.
Qed.

(** Claim C4: uncacheSpan sweeps the span itself exactly when it is stale
    (sweepgen = sg+1), as its last step, after the list moves and after the
    unlock, and then leaves heap_live as it was; a span that is not stale
    is not swept and heap_live drops by (nelems - allocCount) * elemsize. *)
Theorem uncacheSpan_stale_sweeps (E : runtime_env) (sid : nat)
    (st : mcstate) (s : mspan) :
  spans st !! sid = Some s -> span_wf s -> 0 < allocCount s ->
  mc_wf st -> sid ∈ empty st ->
  let sg := mheap_sweepgen st in
  let n := nelems s - allocCount s in
  let moves := if 0 <? n
               then [ELock; ERemove EmptyL sid; EInsert NonemptyL sid; EUnlock]
               else [] in
  (sweepgen s = u32 (sg + 1) ->
     exists st_mid,
       uncacheSpan E sid st =
         bind (mspan_sweep E false sid) (fun _ => mret tt) st_mid /\
       heap_live st_mid = heap_live st /\
       trace st_mid = trace st ++ moves ++ [ESweep sid false] /\
       spans st_mid !! sid = Some (set_sweepgen s (u32 (sg - 1)))) /\
  (sweepgen s <> u32 (sg + 1) ->
     exists st',
       uncacheSpan E sid st = Ok tt st' /\
       heap_live st' = u64 (heap_live st - n * elemsize s) /\
       trace st' = trace st ++ moves /\
       spans st' !! sid = Some (set_sweepgen s sg)).
Proof.
  intros Hs Hwf Ha Hmc Hin sg n moves.
  destruct (uncacheSpan_run E sid st s Hs Hwf Ha Hmc Hin)
    as (st_mid & Hrun & Hsp & Hne & Hem & Hnm & Hhl & Htr).
  fold sg n in Hrun, Hsp, Hne, Hem, Hnm, Hhl, Htr.
  split; intros Hstale.
  - rewrite Hstale, Z.eqb_refl in Hrun, Hsp, Hhl, Htr.
    rewrite andb_false_r in Hhl.
    exists st_mid. rewrite Hsp. simplify_map_eq. done.
  - rewrite (proj2 (Z.eqb_neq _ _) Hstale) in Hrun, Hsp, Hhl, Htr.
    rewrite andb_true_r, app_nil_r in *.
    exists st_mid. rewrite Hsp. simplify_map_eq. repeat split; try done.
    rewrite Hhl. destruct (0 <? n) eqn:En; [done|].
    destruct Hwf as (? & ? & ? & ?). destruct Hmc as (? & ? & ?).
    unfold n in *. replace (nelems s - allocCount s) with 0 by lia.
    rewrite u64_small; lia.
Qed.

(** Claim C3 (as amended): the release is the list step followed, for a
    stale span, by the deferred sweep.  The list step moves a span that has
    a free slot from c.empty to c.nonempty between a lock and an unlock of
    c.lock, and does not move a span with no free slot (allocCount =
    nelems).  A span that is not stale is not swept, so the lists the step
    leaves are those uncacheSpan returns with; a stale span is then swept
    (s.sweep(false)) from the state the step leaves, and the sweep's result
    is the result of the release. *)
Theorem uncacheSpan_moves_to_nonempty (E : runtime_env) (sid : nat)
    (st : mcstate) (s : mspan) (st' : mcstate) :
  spans st !! sid = Some s -> span_wf s -> 0 < allocCount s ->
  mc_wf st -> sid ∈ empty st ->
  uncacheSpan E sid st = Ok tt st' ->
  exists st_mid,
    (if sweepgen s =? u32 (mheap_sweepgen st + 1)
     then exists b, mspan_sweep E false sid st_mid = Ok b st'
     else st' = st_mid) /\
    (allocCount s < nelems s ->
       sid ∈ nonempty st_mid /\ (sid ∉ empty st_mid) /\
       exists t, trace st_mid =
         trace st ++ [ELock; ERemove EmptyL sid; EInsert NonemptyL sid; EUnlock] ++ t) /\
    (allocCount s = nelems s ->
       nonempty st_mid = nonempty st /\ empty st_mid = empty st).
Proof.
  intros Hs Hwf Ha Hmc Hin H.
  destruct (uncacheSpan_run E sid st s Hs Hwf Ha Hmc Hin)
    as (st_mid & Hrun & Hsp & Hne & Hem & Hnm & Hhl & Htr).
  exists st_mid. split.
  { rewrite Hrun in H. destruct (sweepgen s =? _).
    - unfold bind in H. destruct (mspan_sweep E false sid st_mid) as [b st2| |] eqn:Hsw;
        try discriminate.
      unfold mret, M_ret in H. injection H as <-. by exists b.
    - by injection H as <-. }
  destruct Hmc as (_ & _ & Hnd).
  apply NoDup_app in Hnd as (_ & _ & Hn2).
  split; intros Hlt.
  - replace (0 <? nelems s - allocCount s) with true in Hne, Hem, Htr by lia.
    rewrite Hne, Hem, Htr. split; [set_solver|]. split.
    + by apply remove_id_not_in.
    + by eexists.
  - replace (0 <? nelems s - allocCount s) with false in Hne, Hem by lia.
    done.
Qed.

(** ** cacheSpan *)

Lemma cacheSpan_havespan (E : runtime_env) (fuel : nat) (st : mcstate)
    (r : option nat) (st' : mcstate) :
  cacheSpan E fuel st = Ok r st' ->
  r = None \/
  exists sid st_h, r = Some sid /\ reaches_havespan E fuel st sid st_h /\
    havespan E (spanBytes_of E (spanclass st)) sid st_h = Ok r st'.
Proof.
  unfold cacheSpan, reaches_havespan, lock, emit, modify, gets.
  unfold mbind, M_bind, mret, M_ret, bind. simpl.
  destruct (deductSweepCredit _ _ _ st) as [[] st1| |] eqn:Hd; try discriminate.
  destruct (acquire _ _ _ _) as [[sid|] st_h| |] eqn:Ha; try discriminate.
  - intros H. right. exists sid, st_h. split; [|split; [|exact H]].
    + unfold havespan in H. mc_unfold. simpl in H.
      destruct (spans st_h !! sid); [|discriminate]. simpl in H.
      case_match; [discriminate|]. simpl in H. congruence.
    + exists st1. done.
  - intros H. left. congruence.
Qed.

Lemma havespan_run (E : runtime_env) (sb : Z) (sid : nat) (st : mcstate)
    (s : mspan) :
  spans st !! sid = Some s ->
  let n := i64 (i64 (nelems s) - allocCount s) in
  if (n =? 0) || (freeindex s =? nelems s) || (allocCount s =? nelems s)
  then havespan E sb sid st = Throw "span has no free objects"
  else
    let s1 := set_allocCache s (refillAllocCache E s (Z.ldiff (freeindex s) (64 - 1) / 8)) in
    havespan E sb sid st =
      Ok (Some sid)
        (MCState (<[sid := set_allocCache s1 (Z.shiftr (allocCache s1) (freeindex s mod 64))]>
                    (spans st))
                 (nonempty st) (empty st) (u64 (nmalloc st + n)) (spanclass st)
                 (u64 (heap_live st + (i64 sb - i64 (u64 (allocCount s * elemsize s)))))
                 (mheap_sweepgen st) (trace st)).
Proof.
  intros Hs n. unfold havespan. mc_unfold. simpl. rewrite Hs. simpl.
  fold n. destruct (_ || _ || _); reflexivity.
Qed.

Lemma havespan_ok (E : runtime_env) (sb : Z) (sid : nat) (st : mcstate)
    (r : option nat) (st' : mcstate) :
  havespan E sb sid st = Ok r st' ->
  exists s s', spans st !! sid = Some s /\ spans st' !! sid = Some s' /\
    r = Some sid /\
    i64 (i64 (nelems s) - allocCount s) <> 0 /\
    freeindex s <> nelems s /\ allocCount s <> nelems s /\
    nelems s' = nelems s /\ allocCount s' = allocCount s /\
    freeindex s' = freeindex s /\ elemsize s' = elemsize s /\
    nonempty st' = nonempty st /\ empty st' = empty st /\
    trace st' = trace st /\
    nmalloc st' = u64 (nmalloc st + i64 (i64 (nelems s) - allocCount s)) /\
    heap_live st' =
      u64 (heap_live st + (i64 sb - i64 (u64 (allocCount s * elemsize s)))).
Proof.
  intros H.
  destruct (spans st !! sid) as [s|] eqn:Hs.
  2: { unfold havespan in H. mc_unfold. simpl in H. rewrite Hs in H. discriminate. }
  pose proof (havespan_run E sb sid st s Hs) as Hrun. simpl in Hrun.
  destruct (_ || _ || _) eqn:Hc; rewrite Hrun in H; [discriminate|].
  injection H as <- <-. mc_bools.
  eexists _, _. simpl. rewrite lookup_insert_eq. repeat split; done.
Qed.

(** Claim C1: a span that cacheSpan returns has a free slot: allocCount
    and freeindex both differ from nelems, hence, with the range invariant
    allocCount, freeindex <= nelems, both are below nelems; and whenever
    cacheSpan reaches [havespan:] with a span without a free slot, it
    throws "span has no free objects" instead of returning it. *)
Theorem cacheSpan_free_slot (E : runtime_env) (fuel : nat) (st : mcstate) :
  (forall (sid : nat) (st' : mcstate),
     cacheSpan E fuel st = Ok (Some sid) st' ->
     exists s, spans st' !! sid = Some s /\
       allocCount s <> nelems s /\ freeindex s <> nelems s /\
       (allocCount s <= nelems s -> freeindex s <= nelems s ->
        allocCount s < nelems s /\ freeindex s < nelems s)) /\
  (forall (sid : nat) (st_h : mcstate) (s : mspan),
     reaches_havespan E fuel st sid st_h -> spans st_h !! sid = Some s ->
     allocCount s = nelems s \/ freeindex s = nelems s ->
     cacheSpan E fuel st = Throw "span has no free objects").
Proof.
  split.
  - intros sid st' H.
    destruct (cacheSpan_havespan E fuel st _ st' H)
      as [Hn|(sid' & st_h & Heq & _ & Hh)]; [discriminate|].
    injection Heq as <-.
    destruct (havespan_ok E _ sid st_h _ st' Hh)
      as (s & s' & _ & Hs' & _ & _ & Hfi & Hac & Hne & Ha & Hf & _).
    exists s'. rewrite Hne, Ha, Hf. repeat split; try done; lia.
  - intros sid st_h s (st1 & Hd & Ha) Hs Hfull.
    pose proof (havespan_run E (spanBytes_of E (spanclass st)) sid st_h s Hs)
      as Hrun. simpl in Hrun.
    replace ((i64 (i64 (nelems s) - allocCount s) =? 0) ||
             (freeindex s =? nelems s) || (allocCount s =? nelems s))
      with true in Hrun by (destruct Hfull as [->| ->];
                            rewrite Z.eqb_refl, ?orb_true_r; reflexivity).
    unfold cacheSpan, lock, emit, modify, gets.
    unfold mbind, M_bind, mret, M_ret, bind. simpl.
    rewrite Hd. simpl. rewrite Ha. exact Hrun.
Qed.

(** Claim C8 (as amended): all of cacheSpan's own counter updates happen at
    [havespan:]; there nmalloc grows by the span's free slots
    (nelems - allocCount) and heap_live by the span's bytes minus the bytes
    of the objects already allocated in it (spanBytes - allocCount * elemsize),
    not by the full spanBytes. *)
Theorem cacheSpan_counters (E : runtime_env) (fuel : nat) (st : mcstate)
    (sid : nat) (st' : mcstate) :
  cacheSpan E fuel st = Ok (Some sid) st' ->
  exists st_h s, reaches_havespan E fuel st sid st_h /\
    spans st_h !! sid = Some s /\
    (span_wf s -> 0 <= spanBytes_of E (spanclass st) < 2 ^ 63 ->
     nmalloc st' = u64 (nmalloc st_h + (nelems s - allocCount s)) /\
     heap_live st' =
       u64 (heap_live st_h + spanBytes_of E (spanclass st)
            - allocCount s * elemsize s)).
Proof.
  intros H.
  destruct (cacheSpan_havespan E fuel st _ st' H)
    as [Hn|(sid' & st_h & Heq & Hr & Hh)]; [discriminate|].
  injection Heq as <-.
  destruct (havespan_ok E _ sid st_h _ st' Hh)
    as (s & s' & Hs & _ & _ & _ & _ & _ & _ & _ & _ & _ & _ & _ & _ & Hnm & Hhl).
  exists st_h, s. split; [done|]. split; [done|].
  intros (Hac & Hne & Hes & Hfi) Hsb.
  rewrite Hnm, Hhl.
  rewrite (i64_small (nelems s)) by lia.
  rewrite (i64_small (nelems s - allocCount s)) by lia.
  rewrite (i64_small (spanBytes_of E (spanclass st))) by lia.
  rewrite (u64_small (allocCount s * elemsize s)) by nia.
  rewrite (i64_small (allocCount s * elemsize s)) by nia.
  split; [done|]. f_equal. lia.
Qed.

(** ** Acquire then release *)

Lemma remove_id_snoc (x : nat) (l : list nat) :
  x ∉ l -> remove_id x (l ++ [x]) = l.
Proof.
  induction l as [|y l IH]; intros Hx; simpl.
  - by rewrite decide_True.
  - rewrite decide_False by set_solver. f_equal. apply IH. set_solver.
Qed.

Lemma u32_shift_ne (g x : Z) :
  0 <= g < 2 ^ 32 -> 0 < x - g < 2 ^ 32 \/ - 2 ^ 32 < x - g < 0 -> u32 x <> g.
Proof.
  unfold u32. intros Hg Hk H.
  rewrite Z.mod_eq in H by lia.
  set (q := x / 2 ^ 32) in *. lia.
Qed.

Lemma u64_range (x : Z) : 0 <= u64 x < 2 ^ 64.
Proof. unfold u64. apply Z.mod_pos_bound. lia. Qed.

Lemma u64_sub_idemp (x y : Z) : u64 (u64 x - y) = u64 (x - y).
Proof. unfold u64. apply Zminus_mod_idemp_l. Qed.

(** cacheSpan on a state whose c.nonempty starts with a span swept in this
    cycle, with nothing to pay for sweep credit: the first scan takes that
    span at once (no Cas: its sweepgen is sg) and moves it to c.empty. *)
Lemma cacheSpan_take_head (E : runtime_env) (f : nat) (st : mcstate)
    (sid : nat) (rest : list nat) (s : mspan) :
  spans st !! sid = Some s -> NoDup (nonempty st ++ empty st) ->
  nonempty st = sid :: rest ->
  0 <= mheap_sweepgen st < 2 ^ 32 -> sweepgen s = mheap_sweepgen st ->
  deductSweepCredit E (spanBytes_of E (spanclass st)) 0 st = Ok tt st ->
  cacheSpan E (S f) st =
    havespan E (spanBytes_of E (spanclass st)) sid
      (MCState (spans st) rest (empty st ++ [sid]) (nmalloc st) (spanclass st)
         (heap_live st) (mheap_sweepgen st)
         (trace st ++ [ELock; ERemove NonemptyL sid; EInsertBack EmptyL sid; EUnlock])).
Proof.
  intros Hs Hnd Hne Hsg Hgen Hd.
  assert (Hm2 : (mheap_sweepgen st =? u32 (mheap_sweepgen st - 2)) = false).
  { apply Z.eqb_neq. intros Heq.
    by apply (u32_shift_ne (mheap_sweepgen st) (mheap_sweepgen st - 2)); [lia|lia|]. }
  assert (Hm1 : (mheap_sweepgen st =? u32 (mheap_sweepgen st - 1)) = false).
  { apply Z.eqb_neq. intros Heq.
    by apply (u32_shift_ne (mheap_sweepgen st) (mheap_sweepgen st - 1)); [lia|lia|]. }
  rewrite Hne in Hnd. simpl in Hnd. apply NoDup_cons in Hnd as [Hsr Hnd].
  assert (Hd2 := Hnd). apply NoDup_app in Hd2 as (Hn1 & Hdis & Hn2).
  unfold cacheSpan. mc_unfold. simpl. rewrite Hd. simpl.
  mc_unfold. simpl. rewrite Hne. simpl. unfold observe. mc_unfold. simpl.
  rewrite Hs. simpl. rewrite Hgen, Hm2. simpl. rewrite Hs. simpl.
  unfold nonempty_action. rewrite Hgen, Hm2, Hm1. simpl.
  rewrite decide_True by done.
  rewrite bool_decide_true by set_solver. simpl.
  rewrite bool_decide_false by set_solver.
  rewrite bool_decide_false by set_solver. simpl.
  rewrite <-!app_assoc. reflexivity.
Qed.

(** Claim C5 (as amended): take a span at the head of c.nonempty that is
    already swept in this cycle (sweepgen = sg) and holds some but not all
    objects, with no sweep credit to pay.  cacheSpan returns it, and an
    immediate uncacheSpan in the same cycle restores its allocCount,
    nelems, freeindex and sweepgen, both lists and nmalloc exactly; heap_live
    ends higher than before by spanBytes - nelems * elemsize, the bytes of
    the span beyond its last object. *)
Theorem acquire_release_roundtrip (E : runtime_env) (f : nat) (st : mcstate)
    (sid : nat) (rest : list nat) (s : mspan) :
  spans st !! sid = Some s -> span_wf s ->
  0 < allocCount s < nelems s -> freeindex s < nelems s ->
  mc_wf st -> nonempty st = sid :: rest ->
  0 <= mheap_sweepgen st < 2 ^ 32 -> sweepgen s = mheap_sweepgen st ->
  deductSweepCredit E (spanBytes_of E (spanclass st)) 0 st = Ok tt st ->
  0 <= spanBytes_of E (spanclass st) < 2 ^ 63 ->
  exists st1 st2 s2,
    cacheSpan E (S f) st = Ok (Some sid) st1 /\
    uncacheSpan E sid st1 = Ok tt st2 /\
    spans st2 !! sid = Some s2 /\
    allocCount s2 = allocCount s /\ nelems s2 = nelems s /\
    freeindex s2 = freeindex s /\ sweepgen s2 = sweepgen s /\
    nonempty st2 = nonempty st /\ empty st2 = empty st /\
    nmalloc st2 = nmalloc st /\
    heap_live st2 =
      u64 (heap_live st + spanBytes_of E (spanclass st) - nelems s * elemsize s).
Proof.
  intros Hs Hwf Ha Hfi Hmc Hne Hsg Hgen Hd Hsb.
  assert (Hmc0 := Hmc). destruct Hmc0 as (Hhl & Hnm & Hnd).
  rewrite (cacheSpan_take_head E f st sid rest s Hs Hnd Hne Hsg Hgen Hd).
  pose proof (havespan_run E (spanBytes_of E (spanclass st)) sid
    (MCState (spans st) rest (empty st ++ [sid]) (nmalloc st) (spanclass st)
       (heap_live st) (mheap_sweepgen st)
       (trace st ++ [ELock; ERemove NonemptyL sid; EInsertBack EmptyL sid; EUnlock]))
    s Hs) as Hrun.
  destruct Hwf as (Hac & Hnel & Hes & Hfi').
  simpl in Hrun.
  rewrite (i64_small (nelems s)), (i64_small (nelems s - allocCount s)) in Hrun
    by lia.
  destruct (_ || _ || _) eqn:Hc in Hrun; [mc_bools; lia|].
  rewrite Hrun. clear Hrun Hc.
  match goal with |- exists _ _ _, Ok _ ?X = _ /\ _ => set (st1 := X); exists st1 end.
  assert (Hs1 : exists s1, spans st1 !! sid = Some s1 /\
            allocCount s1 = allocCount s /\ nelems s1 = nelems s /\
            freeindex s1 = freeindex s /\ sweepgen s1 = sweepgen s /\
            elemsize s1 = elemsize s).
  { eexists. split; [simpl; apply lookup_insert_eq|]. simpl. done. }
  destruct Hs1 as (s1 & Hs1 & Ha1 & Hn1 & Hf1 & Hg1 & He1).
  assert (Hwf1 : span_wf s1) by (unfold span_wf; lia).
  assert (Hsr : (sid ∉ rest ++ empty st) /\ NoDup (rest ++ empty st)).
  { rewrite Hne in Hnd. by apply NoDup_cons in Hnd. }
  destruct Hsr as [Hsr Hnd'].
  assert (Hmc1 : mc_wf st1).
  { split; [apply u64_range|]. split; [apply u64_range|]. simpl.
    rewrite app_assoc. apply NoDup_app. split; [done|]. split.
    - set_solver.
    - apply NoDup_singleton. }
  assert (Hin1 : sid ∈ empty st1) by (simpl; set_solver).
  assert (Ha1' : 0 < allocCount s1) by lia.
  destruct (uncacheSpan_run E sid st1 s1 Hs1 Hwf1 Ha1' Hmc1 Hin1)
    as (st_mid & Hrun2 & Hsp & Hne2 & Hem & Hnm2 & Hhl2 & Htr).
  assert (Hst : (sweepgen s1 =? u32 (mheap_sweepgen st1 + 1)) = false).
  { apply Z.eqb_neq. simpl. rewrite Hg1, Hgen. intros Heq. symmetry in Heq.
    by apply (u32_shift_ne (mheap_sweepgen st) (mheap_sweepgen st + 1)); [lia|lia|]. }
  assert (Hpos : (0 <? nelems s1 - allocCount s1) = true) by (apply Z.ltb_lt; lia).
  rewrite Hst in Hrun2, Hsp, Hhl2.
  rewrite Hpos in Hne2, Hem, Hnm2, Hhl2.
  simpl in Hrun2.
  exists st_mid, (set_sweepgen s1 (mheap_sweepgen st1)).
  split; [reflexivity|]. split; [exact Hrun2|].
  split; [rewrite Hsp; apply lookup_insert_eq|].
  simpl. rewrite Ha1, Hn1, Hf1, Hgen.
  split; [done|]. split; [done|]. split; [done|]. split; [done|].
  rewrite Hne2, Hem, Hnm2, Hhl2. simpl.
  split; [by rewrite Hne|].
  split; [apply remove_id_snoc; set_solver|].
  rewrite Ha1, Hn1, He1, !u64_sub_idemp.
  split; [rewrite u64_small; [f_equal; lia|lia]|].
  rewrite (i64_small (spanBytes_of E (spanclass st))) by lia.
  rewrite (u64_small (allocCount s * elemsize s)) by nia.
  rewrite (i64_small (allocCount s * elemsize s)) by nia.
  f_equal. lia.
Qed.

(** ** Racing claims *)

Lemma u32_pred_ne (sg : Z) : u32 (sg - 1) <> u32 (sg - 2).
Proof.
  unfold u32. rewrite !Z.mod_eq by lia.
  set (q1 := (sg - 1) / 2 ^ 32). set (q2 := (sg - 2) / 2 ^ 32). lia.
Qed.

Lemma run_race_no_winner (sg cell : Z) (ops : list race_op) :
  cell <> u32 (sg - 2) -> no_reset sg ops = true ->
  race_winners (run_race sg cell ops) = [].
Proof.
  revert cell. induction ops as [|[t|v] ops IH]; intros cell Hc Hr; simpl; [done|..].
  - unfold cas_val. rewrite (proj2 (Z.eqb_neq _ _) Hc). simpl.
    by apply IH.
  - simpl in Hr. apply andb_prop in Hr as [Hv Hr].
    apply negb_true_iff, Z.eqb_neq in Hv. by apply IH.
Qed.

(** A Cas that fails leaves, and lets the re-read see, a value other than
    sg-2. *)
Lemma run_race_loser_ne (sg cell : Z) (ops : list race_op) (t : nat) (g : Z) :
  (t, false, g) ∈ run_race sg cell ops -> g <> u32 (sg - 2).
Proof.
  revert cell. induction ops as [|[t0|v] ops IH]; intros cell Hin; simpl in Hin.
  - by apply not_elem_of_nil in Hin.
  - unfold cas_val in Hin. destruct (cell =? u32 (sg - 2)) eqn:Ec.
    + apply elem_of_cons in Hin as [Hx|Hx]; [discriminate Hx|eauto].
    + apply elem_of_cons in Hin as [Hx|Hx]; [|eauto].
      injection Hx as _ <-. by apply Z.eqb_neq.
  - eauto.
Qed.

(** Claim C9 (as amended): claiming a span is one Cas of s.sweepgen from
    sg-2 to sg-1.  When several threads race on the same stale span and
    nothing writes sg-2 back, exactly one Cas succeeds, the first.  A
    thread whose Cas failed found the span holding some g other than
    sg-2, which its re-read sees; from there the code it runs (the test
    s.sweepgen == sg-1, then continue, or goto havespan / break) is the
    code the scans run on a span whose sweepgen is g.  On such a span the
    scans make no Cas and do not wait: if g = sg-1 the scan of c.nonempty
    and of c.empty go on with the rest of the list in the same state; for
    any other g the scan of c.nonempty takes the span (moves it to the
    back of c.empty, unlocks, returns it) and the scan of c.empty stops. *)
Theorem cas_claim_single_winner (E : runtime_env) (sg : Z) (t : nat)
    (rest : list race_op) :
  no_reset sg rest = true ->
  race_winners (run_race sg (u32 (sg - 2)) (RCas t :: rest)) = [t] /\
  (forall (t' : nat) (g : Z),
     (t', false, g) ∈ run_race sg (u32 (sg - 2)) (RCas t :: rest) ->
     forall (sid : nat) (l : list nat) (st : mcstate) (s : mspan),
       spans st !! sid = Some s -> sweepgen s = g ->
       (g = u32 (sg - 1) ->
          scan_nonempty E sg (sid :: l) st = scan_nonempty E sg l st /\
          scan_empty E sg (sid :: l) st = scan_empty E sg l st) /\
       (g <> u32 (sg - 1) ->
          scan_nonempty E sg (sid :: l) st =
            (list_remove NonemptyL sid;; list_insertBack EmptyL sid;; unlock;;
             mret (Some sid)) st /\
          scan_empty E sg (sid :: l) st = Ok Exhausted st)).
Proof.
  intros Hr. split.
  - simpl. unfold cas_val. rewrite Z.eqb_refl. simpl.
    rewrite run_race_no_winner; [done| |done].
    apply u32_pred_ne.
  - intros t' g Hin sid l st s Hs Hg.
    pose proof (run_race_loser_ne _ _ _ _ _ Hin) as Hne.
    assert (Hobs : observe sg sid st = Ok (g, false, g) st).
    { unfold observe, load_sweepgen, get_span, mbind, M_bind, bind, mret, M_ret.
      rewrite Hs. simpl. rewrite Hg, (proj2 (Z.eqb_neq _ _) Hne). simpl.
      rewrite Hs. simpl. by rewrite Hg. }
    assert (Hb : forall A (k : Z * bool * Z -> M A),
               bind (observe sg sid) k st = k (g, false, g) st)
      by (intros A k; unfold bind; by rewrite Hobs).
    cbn [scan_nonempty scan_empty]. rewrite !Hb. cbv beta iota.
    unfold nonempty_action, empty_action. rewrite !andb_false_r.
    split; intros Hg1.
    + by rewrite (proj2 (Z.eqb_eq _ _) Hg1).
    + by rewrite (proj2 (Z.eqb_neq _ _) Hg1).
Qed.

(** ** Runs on the concrete runtime *)

(** Claim C2, witness: a free span without preserve is returned to the
    heap and unlinked. *)
Lemma freeSpan_spec_witness :
  exists st', freeSpan 1 false false (st48 0 0 2) = Ok true st' /\
    (1%nat ∉ nonempty st') /\ (1%nat ∉ empty st').
Proof.
  assert (H : exists st', freeSpan 1 false false (st48 0 0 2) = Ok true st')
    by (eexists; vm_compute; reflexivity).
  destruct H as [st' H]. exists st'. split; [exact H|].
  destruct (freeSpan_spec 1 false false (st48 0 0 2) st' (span48 0 0 2) true
              eq_refl ltac:(vm_compute; apply NoDup_singleton) H)
    as (_ & _ & Hb & _).
  destruct (Hb eq_refl) as (Hn & He & _). auto.
Defined.

(** Claim C2, counterexample: with preserve, freeSpan does more than stamp
    the current sweepgen: it also sets needzero. *)
Lemma freeSpan_preserve_sets_needzero :
  exists st', freeSpan 1 true false (st48 1 1 2) = Ok false st' /\
    spans st' !! 1%nat <> Some (set_sweepgen (span48 1 1 2) 4) /\
    spans st' !! 1%nat = Some (set_sweepgen (set_needzero (span48 1 1 2) 1) 4).
Proof. eexists. split; [vm_compute; reflexivity|]. vm_compute. split; congruence. Qed.

(** Claim C3, witness: a released span with free slots, not stale, is in
    c.nonempty when uncacheSpan returns. *)
Lemma uncacheSpan_moves_to_nonempty_witness :
  exists st', uncacheSpan test_env 1 (st48e 1 1 4) = Ok tt st' /\
    1%nat ∈ nonempty st'.
Proof.
  assert (H : exists st', uncacheSpan test_env 1 (st48e 1 1 4) = Ok tt st')
    by (eexists; vm_compute; reflexivity).
  destruct H as [st' H]. exists st'. split; [exact H|].
  destruct (uncacheSpan_moves_to_nonempty test_env 1 (st48e 1 1 4) (span48 1 1 4) st'
              eq_refl ltac:(unfold span_wf; simpl; lia) ltac:(simpl; lia)
              ltac:(unfold mc_wf; simpl; split; [lia|]; split; [lia|];
                    apply NoDup_singleton)
              ltac:(simpl; apply list_elem_of_singleton; reflexivity) H)
    as (st_mid & Hend & Hlt & _).
  change (st' = st_mid) in Hend. subst st'.
  apply Hlt. simpl. lia.
Defined.

(** Claim C3, counterexample: a span released with every slot allocated
    stays in c.empty. *)
Lemma uncacheSpan_full_span_stays_empty :
  exists st', uncacheSpan test_env 1 (st48e 170 170 4) = Ok tt st' /\
    empty st' = [1%nat] /\ nonempty st' = [].
Proof. eexists. split; [vm_compute; reflexivity|]. split; reflexivity. Qed.

(** Claim C4, witness: releasing a span that is not stale lowers heap_live
    by its free bytes and does not sweep it. *)
Lemma uncacheSpan_stale_sweeps_witness :
  exists st', uncacheSpan test_env 1 (st48e 1 1 4) = Ok tt st' /\
    heap_live st' = u64 (9144 - 169 * 48).
Proof.
  destruct (uncacheSpan_stale_sweeps test_env 1 (st48e 1 1 4) (span48 1 1 4)
              eq_refl ltac:(unfold span_wf; simpl; lia) ltac:(simpl; lia)
              ltac:(unfold mc_wf; simpl; split; [lia|]; split; [lia|];
                    apply NoDup_singleton)
              ltac:(simpl; apply list_elem_of_singleton; reflexivity))
    as [_ Hns].
  destruct (Hns ltac:(vm_compute; discriminate)) as (st' & H & Hh & _).
  exists st'. auto.
Defined.

(** Claim C5, witness: the round trip on a span with 1 of 170 objects
    allocated. *)
Lemma acquire_release_roundtrip_witness :
  exists st1 st2, cacheSpan test_env 1 (st48 1 1 4) = Ok (Some 1%nat) st1 /\
    uncacheSpan test_env 1 st1 = Ok tt st2 /\ nmalloc st2 = 0.
Proof.
  destruct (acquire_release_roundtrip test_env 0 (st48 1 1 4) 1 [] (span48 1 1 4)
              eq_refl ltac:(unfold span_wf; simpl; lia) ltac:(simpl; lia)
              ltac:(simpl; lia)
              ltac:(unfold mc_wf; simpl; split; [lia|]; split; [lia|];
                    apply NoDup_singleton)
              eq_refl ltac:(simpl; lia) eq_refl eq_refl
              ltac:(split; vm_compute; congruence))
    as (st1 & st2 & s2 & H1 & H2 & _ & _ & _ & _ & _ & _ & _ & Hn & _).
  exists st1, st2. auto.
Defined.

(** Claim C5, counterexample: after acquiring and immediately releasing the
    span, heap_live is 1032, not the 1000 it was before. *)
Lemma acquire_release_heap_live_drift :
  exists st1 st2, cacheSpan test_env 1 (st48 1 1 4) = Ok (Some 1%nat) st1 /\
    uncacheSpan test_env 1 st1 = Ok tt st2 /\
    heap_live (st48 1 1 4) = 1000 /\ heap_live st2 = 1032.
Proof.
  eexists. eexists. split; [vm_compute; reflexivity|]. split; [vm_compute; reflexivity|].
  split; reflexivity.
Qed.

(** Claim C6, witness. *)
Lemma uncacheSpan_zero_alloc_throws_witness :
  uncacheSpan test_env 1 (st48 0 0 4) = Throw "uncaching span but s.allocCount == 0".
Proof.
  apply (uncacheSpan_zero_alloc_throws test_env 1 (st48 0 0 4) (span48 0 0 4));
    reflexivity.
Defined.

(** Claim C7, witness: a span stamped sg+1 (cached in an mcache). *)
Lemma freeSpan_cached_throws_witness :
  freeSpan 1 false false (st48 1 1 5) = Throw "freeSpan given cached span".
Proof.
  apply (freeSpan_cached_throws 1 false false (st48 1 1 5) (span48 1 1 5));
    [reflexivity | left; reflexivity].
Defined.

(** Claim C8, witness: the run of cacheSpan on span 1 goes through
    [havespan:]. *)
Lemma cacheSpan_counters_witness :
  exists st', cacheSpan test_env 1 (st48 1 1 4) = Ok (Some 1%nat) st' /\
    exists st_h s, reaches_havespan test_env 1 (st48 1 1 4) 1 st_h /\
      spans st_h !! 1%nat = Some s.
Proof.
  assert (H : exists st', cacheSpan test_env 1 (st48 1 1 4) = Ok (Some 1%nat) st')
    by (eexists; vm_compute; reflexivity).
  destruct H as [st' H]. exists st'. split; [exact H|].
  destruct (cacheSpan_counters test_env 1 (st48 1 1 4) 1 st' H)
    as (st_h & s & Hr & Hs & _).
  exists st_h, s. auto.
Defined.

(** Claim C8, counterexample: cacheSpan on a span with one object of 48
    bytes allocated raises heap_live from 1000 to 9144, by 8144 bytes, not
    by the span's 8192 bytes. *)
Lemma cacheSpan_heap_live_not_full_span :
  exists st', cacheSpan test_env 1 (st48 1 1 4) = Ok (Some 1%nat) st' /\
    spanBytes_of test_env (spanclass (st48 1 1 4)) = 8192 /\
    heap_live (st48 1 1 4) = 1000 /\ heap_live st' = 9144.
Proof. eexists. split; [vm_compute; reflexivity|]. repeat split; reflexivity. Qed.

(** Claim C9, witness: two threads race on a stale span; the winner's sweep
    ends with a store of sg in between, so the loser sees sg and its scan
    of c.empty stops at the span. *)
Lemma cas_claim_single_winner_witness :
  no_reset 4 [RStore 4; RCas 1] = true /\
  race_winners (run_race 4 (u32 (4 - 2)) [RCas 0; RStore 4; RCas 1]) = [0%nat] /\
  scan_empty test_env 4 [1%nat] (st48e 0 0 4) = Ok Exhausted (st48e 0 0 4).
Proof.
  destruct (cas_claim_single_winner test_env 4 0 [RStore 4; RCas 1] eq_refl)
    as [Hw Hl].
  split; [vm_compute; reflexivity|]. split; [exact Hw|].
  refine (proj2 (proj2 (Hl 1%nat 4 _ 1%nat [] (st48e 0 0 4) (span48 0 0 4)
                          eq_refl eq_refl) _)).
  - apply list_elem_of_In. vm_compute. right. left. reflexivity.
  - vm_compute. discriminate.
Defined.

(** Claim C9, counterexample: thread 1 loses the Cas after thread 0 has
    finished sweeping (sweepgen = sg); it sees sg, so the scan of c.nonempty
    takes the span instead of going on scanning, and the scan of c.empty
    ends there. *)
Lemma cas_race_loser_takes_span :
  run_race 4 (u32 (4 - 2)) [RCas 0; RStore 4; RCas 1] =
    [(0%nat, true, u32 (4 - 1)); (1%nat, false, 4)] /\
  (exists st', scan_nonempty test_env 4 [1%nat] (st48 0 0 4) = Ok (Some 1%nat) st') /\
  scan_empty test_env 4 [1%nat] (st48e 0 0 4) = Ok Exhausted (st48e 0 0 4).
Proof.
  split; [reflexivity|]. split; [|vm_compute; reflexivity].
  eexists. vm_compute. reflexivity.
Qed.

(** Claim C10, witness: freeSpan of a span that still holds an object. *)
Lemma freeSpan_sets_needzero_witness :
  exists st' s', freeSpan 1 false false (st48 1 1 2) = Ok false st' /\
    spans st' !! 1%nat = Some s' /\ needzero s' = 1.
Proof.
  assert (H : exists st', freeSpan 1 false false (st48 1 1 2) = Ok false st')
    by (eexists; vm_compute; reflexivity).
  destruct H as [st' H].
  destruct (freeSpan_sets_needzero 1 false false (st48 1 1 2) st' false H)
    as (s' & Hs' & Hz).
  exists st', s'. auto.
Defined.

(** ** The discipline of c.lock *)

Lemma lock_walk_app (h : bool) (t1 t2 : list event) :
  lock_walk h (t1 ++ t2) =
    match lock_walk h t1 with Some h1 => lock_walk h1 t2 | None => None end.
Proof.
  revert h. induction t1 as [|e t1 IH]; intros h; simpl; [done|].
  destruct e; try destruct h; auto.
Qed.

Lemma lock_spec_bind {A B} (h : bool) (m : M A) (k : A -> M B) P Q :
  lock_spec h m P -> (forall a, lock_spec (P a) (k a) Q) ->
  lock_spec h (bind m k) Q.
Proof.
  intros Hm Hk st b st'. unfold bind.
  destruct (m st) as [a st1| |] eqn:Em; try discriminate.
  intros H. destruct (Hm _ _ _ Em) as (t1 & Ht1 & Hw1).
  destruct (Hk a _ _ _ H) as (t2 & Ht2 & Hw2).
  exists (t1 ++ t2). split.
  - by rewrite Ht2, Ht1, app_assoc.
  - by rewrite lock_walk_app, Hw1.
Qed.

Lemma lock_spec_ret {A} (h : bool) (a : A) Q :
  Q a = h -> lock_spec h (mret a) Q.
Proof.
  intros Hq st b st' H. unfold mret, M_ret in H. injection H as <- <-.
  exists []. rewrite app_nil_r. by rewrite Hq.
Qed.

Lemma lock_spec_throw {A} (h : bool) (msg : string) (Q : A -> bool) :
  lock_spec h (throw msg) Q.
Proof. intros st a st' H. discriminate H. Qed.

Lemma lock_spec_nofuel {A} (h : bool) (Q : A -> bool) :
  lock_spec h (fun _ => NoFuel) Q.
Proof. intros st a st' H. discriminate H. Qed.

(** A step that keeps the trace as it is. *)
Lemma lock_spec_same {A} (h : bool) (m : M A) :
  (forall st a st', m st = Ok a st' -> trace st' = trace st) ->
  lock_spec h m (fun _ => h).
Proof.
  intros Hm st a st' H. exists []. rewrite app_nil_r. split; [by eapply Hm|done].
Qed.

(** A step that appends one event other than a lock operation. *)
Lemma lock_spec_event {A} (h : bool) (m : M A) (e : event) :
  e <> ELock -> e <> EUnlock ->
  (forall st a st', m st = Ok a st' -> trace st' = trace st ++ [e]) ->
  lock_spec h m (fun _ => h).
Proof.
  intros He1 He2 Hm st a st' H. exists [e]. split; [by eapply Hm|].
  destruct e; simpl; done.
Qed.

Lemma lock_spec_lock : lock_spec false lock (fun _ => true).
Proof.
  intros st a st' H. unfold lock, emit, modify in H. injection H as <- <-.
  exists [ELock]. done.
Qed.

Lemma lock_spec_unlock : lock_spec true unlock (fun _ => false).
Proof.
  intros st a st' H. unfold unlock, emit, modify in H. injection H as <- <-.
  exists [EUnlock]. done.
Qed.

Ltac lk_same := apply lock_spec_same; intros ? ? ? ?Hx; mc_run.

Lemma lock_spec_gets {A} h (f : mcstate -> A) : lock_spec h (gets f) (fun _ => h).
Proof. by lk_same. Qed.
Lemma lock_spec_get_span h sid : lock_spec h (get_span sid) (fun _ => h).
Proof. by lk_same. Qed.
Lemma lock_spec_put_span h sid s : lock_spec h (put_span sid s) (fun _ => h).
Proof. by lk_same. Qed.
Lemma lock_spec_load h sid : lock_spec h (load_sweepgen sid) (fun _ => h).
Proof. by lk_same. Qed.
Lemma lock_spec_store h sid g : lock_spec h (store_sweepgen sid g) (fun _ => h).
Proof. by lk_same. Qed.
Lemma lock_spec_cas h sid o n : lock_spec h (cas_sweepgen sid o n) (fun _ => h).
Proof. lk_same. all: destruct (cas_val _ _ _); simplify_eq/=; done. Qed.
Lemma lock_spec_inList h sid : lock_spec h (inList sid) (fun _ => h).
Proof. by lk_same. Qed.
Lemma lock_spec_modify h f :
  (forall st, trace (f st) = trace st) -> lock_spec h (modify f) (fun _ => h).
Proof. intros Hf. apply lock_spec_same. intros st a st' H. injection H as <- <-. apply Hf. Qed.

Lemma lock_spec_remove h l sid : lock_spec h (list_remove l sid) (fun _ => h).
Proof.
  apply (lock_spec_event _ _ (ERemove l sid)); try done.
  intros st a st' H. unfold list_remove in H. case_bool_decide; [|discriminate].
  injection H as <- <-. done.
Qed.
Lemma lock_spec_insert h l sid : lock_spec h (list_insert l sid) (fun _ => h).
Proof.
  apply (lock_spec_event _ _ (EInsert l sid)); try done.
  intros st a st' H. mc_run. done.
Qed.
Lemma lock_spec_insertBack h l sid : lock_spec h (list_insertBack l sid) (fun _ => h).
Proof.
  apply (lock_spec_event _ _ (EInsertBack l sid)); try done.
  intros st a st' H. mc_run. done.
Qed.
Lemma lock_spec_heapfree h sid : lock_spec h (mheap_freeSpan sid) (fun _ => h).
Proof.
  apply (lock_spec_event _ _ (EHeapFree sid)); try done.
  intros st a st' H. mc_run. done.
Qed.
Lemma lock_spec_emit_sweep h sid p : lock_spec h (emit (ESweep sid p)) (fun _ => h).
Proof.
  apply (lock_spec_event _ _ (ESweep sid p)); try done.
  intros st a st' H. mc_run. done.
Qed.

Ltac lk_prim :=
  first [ apply lock_spec_gets | apply lock_spec_get_span | apply lock_spec_put_span
        | apply lock_spec_load | apply lock_spec_store | apply lock_spec_cas
        | apply lock_spec_inList | apply lock_spec_remove | apply lock_spec_insert
        | apply lock_spec_insertBack | apply lock_spec_heapfree
        | apply lock_spec_emit_sweep | apply lock_spec_lock | apply lock_spec_unlock
        | apply lock_spec_modify; reflexivity ].

Ltac lk_go :=
  unfold mbind, M_bind;
  repeat (cbv beta; match goal with
    | |- forall _, _ => intros
    | |- lock_spec _ (bind _ _) _ => eapply lock_spec_bind; [lk_prim|]
    | |- lock_spec _ (mret _) _ => apply lock_spec_ret; reflexivity
    | |- lock_spec _ (throw _) _ => apply lock_spec_throw
    | |- lock_spec _ (fun _ => NoFuel) _ => apply lock_spec_nofuel
    | |- context [match ?x with _ => _ end] => destruct x
    end).

Lemma lock_spec_observe h sg sid : lock_spec h (observe sg sid) (fun _ => h).
Proof.
  unfold observe. unfold mbind, M_bind.
  eapply lock_spec_bind; [lk_prim|]. intros g1. cbv beta.
  eapply lock_spec_bind with (P := fun _ => h).
  { destruct (g1 =? u32 (sg - 2)); [lk_prim|]. by apply lock_spec_ret. }
  intros won. cbv beta.
  eapply lock_spec_bind with (P := fun _ => h).
  { destruct won; [by apply lock_spec_ret|lk_prim]. }
  intros g2. by apply lock_spec_ret.
Qed.

Section LockDiscipline.

Variable E : runtime_env.
Hypothesis HE : env_locks E.

Lemma lock_spec_sweep p sid : lock_spec false (sweep E p sid) (fun _ => false).
Proof.
  unfold sweep. unfold mbind, M_bind.
  eapply lock_spec_bind; [lk_prim|]. intros ?. apply HE.
Qed.

Lemma lock_spec_scan_nonempty sg l :
  lock_spec true (scan_nonempty E sg l)
    (fun r => match r with Some _ => false | None => true end).
Proof.
  induction l as [|sid l IH]; simpl; [by apply lock_spec_ret|].
  unfold mbind, M_bind.
  eapply lock_spec_bind; [apply lock_spec_observe|]. intros [[g1 won] g2]. cbv beta.
  destruct (nonempty_action sg g1 won g2); [| exact IH |].
  all: repeat (eapply lock_spec_bind; [first [lk_prim | apply lock_spec_sweep]|]; intros ?; cbv beta).
  all: by apply lock_spec_ret.
Qed.

Lemma lock_spec_scan_empty sg l :
  lock_spec true (scan_empty E sg l)
    (fun r => match r with Have _ => false | Retry => true | Exhausted => true end).
Proof.
  induction l as [|sid l IH]; simpl; [by apply lock_spec_ret|].
  unfold mbind, M_bind.
  eapply lock_spec_bind; [apply lock_spec_observe|]. intros [[g1 won] g2]. cbv beta.
  destruct (empty_action sg g1 won g2); [| exact IH | by apply lock_spec_ret].
  do 4 (eapply lock_spec_bind; [first [lk_prim | apply lock_spec_sweep]|]; intros ?; cbv beta).
  eapply lock_spec_bind; [apply HE|]. intros fi. cbv beta.
  eapply lock_spec_bind; [lk_prim|]. intros s. cbv beta.
  destruct (negb _).
  - eapply lock_spec_bind; [lk_prim|]. intros ?. by apply lock_spec_ret.
  - eapply lock_spec_bind; [lk_prim|]. intros ?. by apply lock_spec_ret.
Qed.

Lemma lock_spec_grow : lock_spec false (grow E) (fun _ => false).
Proof.
  unfold grow. unfold mbind, M_bind.
  eapply lock_spec_bind; [lk_prim|]. intros spc. cbv beta.
  eapply lock_spec_bind; [apply HE|]. intros [sid|]; cbv beta; [|by apply lock_spec_ret].
  eapply lock_spec_bind; [lk_prim|]. intros s. cbv beta.
  eapply lock_spec_bind; [lk_prim|]. intros ?. cbv beta.
  eapply lock_spec_bind; [apply HE|]. intros ?. by apply lock_spec_ret.
Qed.

Lemma lock_spec_acquire fuel sg :
  lock_spec true (acquire E fuel sg) (fun _ => false).
Proof.
  induction fuel as [|fuel IH]; simpl; [apply lock_spec_nofuel|].
  unfold mbind, M_bind.
  eapply lock_spec_bind; [lk_prim|]. intros ne. cbv beta.
  eapply lock_spec_bind; [apply lock_spec_scan_nonempty|]. intros [sid|]; cbv beta.
  { by apply lock_spec_ret. }
  eapply lock_spec_bind; [lk_prim|]. intros em. cbv beta.
  eapply lock_spec_bind; [apply lock_spec_scan_empty|]. intros [sid| |]; cbv beta.
  - by apply lock_spec_ret.
  - exact IH.
  - eapply lock_spec_bind; [lk_prim|]. intros ?. cbv beta.
    eapply lock_spec_bind; [apply lock_spec_grow|]. intros [sid|]; cbv beta.
    + do 3 (eapply lock_spec_bind; [lk_prim|]; intros ?; cbv beta).
      by apply lock_spec_ret.
    + by apply lock_spec_ret.
Qed.

Lemma lock_spec_havespan sb sid : lock_spec false (havespan E sb sid) (fun _ => false).
Proof.
  unfold havespan. unfold mbind, M_bind.
  eapply lock_spec_bind; [lk_prim|]. intros s. cbv beta.
  destruct (_ || _ || _); [apply lock_spec_throw|].
  do 3 (eapply lock_spec_bind; [lk_prim|]; intros ?; cbv beta).
  by apply lock_spec_ret.
Qed.

Lemma lock_spec_cacheSpan fuel : lock_spec false (cacheSpan E fuel) (fun _ => false).
Proof.
  unfold cacheSpan. unfold mbind, M_bind.
  eapply lock_spec_bind; [lk_prim|]. intros spc. cbv beta.
  eapply lock_spec_bind; [apply HE|]. intros ?. cbv beta.
  eapply lock_spec_bind; [lk_prim|]. intros ?. cbv beta.
  eapply lock_spec_bind; [lk_prim|]. intros sg. cbv beta.
  eapply lock_spec_bind; [apply lock_spec_acquire|]. intros [sid|]; cbv beta.
  - apply lock_spec_havespan.
  - by apply lock_spec_ret.
Qed.

Lemma lock_spec_uncacheSpan sid : lock_spec false (uncacheSpan E sid) (fun _ => false).
Proof.
  unfold uncacheSpan. unfold mbind, M_bind.
  eapply lock_spec_bind; [lk_prim|]. intros s. cbv beta.
  destruct (allocCount s =? 0); [apply lock_spec_throw|].
  eapply lock_spec_bind; [lk_prim|]. intros sg. cbv beta.
  eapply lock_spec_bind with (P := fun _ => false).
  { destruct (sweepgen s =? _); lk_prim. }
  intros ?. cbv beta.
  eapply lock_spec_bind; [lk_prim|]. intros s'. cbv beta.
  eapply lock_spec_bind with (P := fun _ => false).
  { destruct (0 <? _); [|by apply lock_spec_ret].
    do 4 (eapply lock_spec_bind; [lk_prim|]; intros ?; cbv beta).
    eapply lock_spec_bind with (P := fun _ => true).
    { destruct (negb _); [lk_prim|by apply lock_spec_ret]. }
    intros ?. apply lock_spec_unlock. }
  intros ?. cbv beta.
  destruct (sweepgen s =? _); [|by apply lock_spec_ret].
  eapply lock_spec_bind; [apply lock_spec_sweep|]. intros ?. by apply lock_spec_ret.
Qed.

End LockDiscipline.

(** What freeSpan does with c.lock: with preserve it neither locks nor
    unlocks it; without preserve it locks it exactly once and unlocks it
    exactly once, and when it returns the span to the heap that hand-over
    is the only thing it does after the unlock. *)
Theorem freeSpan_lock_once (sid : nat) (preserve wasempty : bool)
    (st st' : mcstate) (b : bool) :
  freeSpan sid preserve wasempty st = Ok b st' ->
  (preserve = true -> trace st' = trace st) /\
  (preserve = false ->
     exists t1 t2,
       trace st' = trace st ++ ELock :: t1 ++ EUnlock :: t2 /\
       (ELock ∉ t1) /\ (EUnlock ∉ t1) /\ (ELock ∉ t2) /\ (EUnlock ∉ t2) /\
       (b = true -> t2 = [EHeapFree sid]) /\ (b = false -> t2 = [])).
Proof.
  intros H. unfold freeSpan in H. mc_run.
  all: split; intros Hp; try discriminate Hp; try done.
  all: rewrite <-?app_assoc; simpl.
  all: first [ exists [], []; split; [reflexivity|]
             | exists [ERemove NonemptyL sid], [EHeapFree sid]; split; [reflexivity|]
             | exists [ERemove EmptyL sid; EInsert NonemptyL sid], [];
               split; [reflexivity|]
             | exists [ERemove EmptyL sid; EInsert NonemptyL sid; ERemove NonemptyL sid],
                 [EHeapFree sid]; split; [reflexivity|] ].
  all: repeat split; try (intros Hx; discriminate Hx); try (intros; reflexivity).
  all: intros Hx; repeat (apply elem_of_cons in Hx as [Hx|Hx]; [discriminate Hx|]).
  all: by apply not_elem_of_nil in Hx.
Qed.


(** ** Where cacheSpan leaves the span it hands out *)

Section SpanPlace.

Variable E : runtime_env.
Hypothesis Hsw : forall sid, keeps_lists (mspan_sweep E true sid).
Hypothesis Hnf : forall sid, keeps_lists (nextFreeIndex E sid).

Ltac place_close :=
  repeat match goal with
  | Hx : mspan_sweep E true _ _ = Ok _ _ |- _ => apply Hsw in Hx as [?Hn ?He]
  | Hx : nextFreeIndex E _ _ = Ok _ _ |- _ => apply Hnf in Hx as [?Hn ?He]
  end;
  repeat match goal with
  | Hx : nonempty ?a = _ |- context [nonempty ?a] => rewrite Hx
  | Hx : empty ?a = _ |- context [empty ?a] => rewrite Hx
  end; simpl in *; mc_bools.

Lemma scan_nonempty_place sg l st sid st' :
  scan_nonempty E sg l st = Ok (Some sid) st' ->
  sid ∈ empty st' /\ sid ∉ nonempty st'.
Proof.
  revert st. induction l as [|x l IH]; intros st H; simpl in H.
  { discriminate H. }
  unfold observe, sweep in H. mc_run.
  all: try (eapply IH; eassumption).
  all: place_close.
  all: split; [set_solver|assumption].
Qed.

Lemma scan_empty_place sg l st sid st' :
  scan_empty E sg l st = Ok (Have sid) st' ->
  sid ∈ empty st' /\ sid ∉ nonempty st'.
Proof.
  revert st. induction l as [|x l IH]; intros st H; simpl in H.
  { discriminate H. }
  unfold observe, sweep in H. mc_run.
  all: try (eapply IH; eassumption).
  all: place_close.
  all: split; [set_solver|assumption].
Qed.

Lemma acquire_place fuel sg st sid st' :
  acquire E fuel sg st = Ok (Some sid) st' ->
  sid ∈ empty st' /\ sid ∉ nonempty st'.
Proof.
  revert st. induction fuel as [|fuel IH]; intros st H; simpl in H.
  { discriminate H. }
  mc_run.
  all: try (eapply scan_nonempty_place; eassumption).
  all: try (eapply scan_empty_place; eassumption).
  all: try (eapply IH; eassumption).
  all: mc_bools; split; [set_solver|assumption].
Qed.

(** cacheSpan hands a span to an mcache only while the span is linked in
    c.empty and not in c.nonempty, on every path (taken from c.nonempty,
    swept from c.empty, or freshly grown), provided the sweep of a claimed
    span (s.sweep(true)) and s.nextFreeIndex() leave the lists alone. *)
Theorem cacheSpan_span_in_empty fuel st sid st' :
  cacheSpan E fuel st = Ok (Some sid) st' ->
  sid ∈ empty st' /\ sid ∉ nonempty st'.
Proof.
  intros H.
  destruct (cacheSpan_havespan E fuel st _ st' H)
    as [Hn|(sid' & st_h & Heq & (st1 & Hd & Ha) & Hh)]; [discriminate|].
  injection Heq as <-.
  apply acquire_place in Ha.
  unfold havespan in Hh. mc_run. exact Ha.
Qed.

End SpanPlace.

(** ** More of mcentral.go and mem_bsd.go *)

(** Facts of the concrete runtimes used by the runs below. *)

Lemma test_env_locks : env_locks test_env.
Proof.
  repeat split; intros; simpl; unfold stamp_sweep; try (apply lock_spec_ret; reflexivity).
  all: lk_go.
Qed.

Lemma test_env_sweep_keeps p sid : keeps_lists (mspan_sweep test_env p sid).
Proof. intros st a st' H. simpl in H. unfold stamp_sweep in H. mc_run. done. Qed.

Lemma test_env_nfi_keeps sid : keeps_lists (nextFreeIndex test_env sid).
Proof. intros st a st' H. simpl in H. mc_run. done. Qed.

Lemma grow_env_deduct_keeps x y : keeps_lists (deductSweepCredit grow_env x y).
Proof. intros st a st' H. simpl in H. mc_run. done. Qed.

Lemma grow_env_alloc_keeps np c z : keeps_lists (mheap_alloc grow_env np c z).
Proof. intros st a st' H. simpl in H. mc_run. done. Qed.

Lemma grow_env_init_keeps sid : keeps_lists (initSpan grow_env sid).
Proof. intros st a st' H. simpl in H. mc_run. done. Qed.

(** The scan of c.nonempty (lines 80-97) falls through to c.empty only
    when every span it passed was being swept by another thread
    (sweepgen = sg-1), and then it has changed nothing. *)
Theorem scan_nonempty_none sg l E st st' :
  scan_nonempty E sg l st = Ok None st' ->
  st' = st /\
  Forall (fun sid => exists s, spans st !! sid = Some s /\ sweepgen s = u32 (sg - 1)) l.
Proof.
  revert st. induction l as [|x l IH]; intros st H; simpl in H.
  { mc_run. split; [done|constructor]. }
  unfold observe, nonempty_action in H. mc_run; mc_bools.
  all: try lia.
  all: repeat match goal with Hc : cas_val _ _ _ = _ |- _ =>
         unfold cas_val in Hc; rewrite ?Z.eqb_refl in Hc; mc_run end.
  all: try lia.
  all: apply IH in H as [-> HF]; split; [done|constructor; [eauto|exact HF]].
Qed.

(** The scan of c.empty (lines 103-129) that ends without a span (the
    list runs out, or a span neither claimable nor being swept stops it)
    has changed nothing. *)
Theorem scan_empty_exhausted E sg l st st' :
  scan_empty E sg l st = Ok Exhausted st' -> st' = st.
Proof.
  revert st. induction l as [|x l IH]; intros st H; simpl in H.
  { by mc_run. }
  unfold observe, empty_action in H. mc_run; mc_bools.
  all: try lia.
  all: repeat match goal with Hc : cas_val _ _ _ = _ |- _ =>
         unfold cas_val in Hc; rewrite ?Z.eqb_refl in Hc; mc_run end.
  all: try lia.
  all: first [done | apply IH in H; done].
Qed.

(** On an mcentral just set up by init (lines 43-47), cacheSpan finds
    both lists empty and grows (lines 134-146): it returns nil and the
    lists stay empty, or it returns the new span, which is then the only
    span linked, in c.empty; provided the sweep credit, mheap_.alloc and
    initSpan leave the lists alone. *)
Theorem init_cacheSpan_grows E spc f st r st' :
  (forall x y, keeps_lists (deductSweepCredit E x y)) ->
  (forall np c z, keeps_lists (mheap_alloc E np c z)) ->
  (forall sid, keeps_lists (initSpan E sid)) ->
  bind (mcentral_init spc) (fun _ => cacheSpan E (S f)) st = Ok r st' ->
  nonempty st' = [] /\ empty st' = match r with None => [] | Some sid => [sid] end.
Proof.
  intros Hd Ha Hi H. unfold cacheSpan, mcentral_init in H. mc_unfold. simpl in H.
  destruct (deductSweepCredit _ _ _ _) as [[] st1| |] eqn:ED; try discriminate.
  apply Hd in ED as [En Ee]. simpl in En, Ee.
  simpl in H. rewrite En in H. simpl in H. rewrite Ee in H. simpl in H.
  unfold grow in H. mc_unfold. simpl in H.
  destruct (mheap_alloc _ _ _ _ _) as [[sid|] st2| |] eqn:EA; try discriminate.
  all: apply Ha in EA as [En2 Ee2]; simpl in En2, Ee2.
  2: { mc_run. simpl. rewrite En2, Ee2. done. }
  destruct (spans st2 !! sid) as [s|]; simpl in H; [|discriminate].
  destruct (initSpan _ _ _) as [[] st3| |] eqn:EI; try discriminate.
  apply Hi in EI as [En3 Ee3]; simpl in En3, Ee3.
  rewrite En3, Ee3, En2, Ee2 in H. mc_run.
  destruct (havespan _ _ _ _) as [r' st4| |] eqn:EH; try discriminate.
  injection H as <- <-.
  destruct (havespan_ok _ _ _ _ _ _ EH) as (? & ? & _ & _ & -> & _ & _ & _ & _ & _ & _ & _ & Hn4 & He4 & _).
  by rewrite Hn4, He4.
Qed.

(** At [havespan:] (lines 174-181) allocCache is refilled from byte
    8*(freeindex/64) of the allocation bits, the 8-byte word holding bit
    freeindex, and shifted right by freeindex mod 64; nothing else of the
    span changes. *)
Theorem havespan_allocCache E sb sid st s r st' :
  spans st !! sid = Some s ->
  havespan E sb sid st = Ok r st' ->
  spans st' !! sid =
    Some (set_allocCache s
            (Z.shiftr (refillAllocCache E s (8 * (freeindex s / 64)))
                      (freeindex s mod 64))).
Proof.
  intros Hs H.
  pose proof (havespan_run E sb sid st s Hs) as Hrun. simpl in Hrun.
  destruct (_ || _ || _); rewrite Hrun in H; [discriminate|].
  injection H as <- <-. simpl. rewrite lookup_insert_eq.
  replace (Z.ldiff (freeindex s) (64 - 1) / 8) with (8 * (freeindex s / 64)).
  { by destruct s. }
  change (64 - 1) with (Z.ones 6).
  rewrite Z.ldiff_ones_r by lia.
  rewrite Z.shiftl_mul_pow2, Z.shiftr_div_pow2 by lia.
  replace (freeindex s / 2 ^ 6 * 2 ^ 6) with (freeindex s / 64 * 8 * 8)
    by (change (2 ^ 6) with 64; lia).
  rewrite Z.div_mul by lia. lia.
Qed.

(** uncacheSpan of a span that is not stale and has no free slot left
    (n <= 0) only stores sweepgen = sg: it takes no lock and leaves the
    lists, counters and trace alone. *)
Theorem uncacheSpan_full_stamps E sid st s :
  spans st !! sid = Some s ->
  allocCount s <> 0 ->
  sweepgen s <> u32 (mheap_sweepgen st + 1) ->
  i64 (i64 (nelems s) - allocCount s) <= 0 ->
  uncacheSpan E sid st =
    Ok tt (with_spans st (<[sid := set_sweepgen s (mheap_sweepgen st)]> (spans st))).
Proof.
  intros Hs Ha Hg Hn. unfold uncacheSpan. mc_unfold. simpl. rewrite Hs. simpl.
  apply Z.eqb_neq in Ha, Hg. rewrite Ha, Hg. simpl.
  rewrite Hs. simpl. rewrite lookup_insert_eq. simpl.
  apply Z.ltb_ge in Hn. rewrite Hn. simpl. by destruct st.
Qed.

(** freeSpan with preserve of a span that is not cached but linked in
    neither list throws "can't preserve unlinked span" (line 256). *)
Theorem freeSpan_preserve_unlinked_throws sid wasempty st s :
  spans st !! sid = Some s ->
  sweepgen s <> u32 (mheap_sweepgen st + 1) ->
  sweepgen s <> u32 (mheap_sweepgen st + 3) ->
  sid ∉ nonempty st -> sid ∉ empty st ->
  freeSpan sid true wasempty st = Throw "can't preserve unlinked span".
Proof.
  intros Hs H1 H3 Hn He. unfold freeSpan. mc_unfold. simpl. rewrite Hs. simpl.
  apply Z.eqb_neq in H1, H3. rewrite H1, H3. simpl.
  by rewrite !bool_decide_eq_false_2.
Qed.

(** When the runtime functions they call leave c.lock free, cacheSpan and
    uncacheSpan never lock c.lock while held nor unlock it while free,
    and return with it free. *)
Theorem cacheSpan_uncacheSpan_lock_balanced E :
  env_locks E ->
  (forall fuel, lock_spec false (cacheSpan E fuel) (fun _ => false)) /\
  (forall sid, lock_spec false (uncacheSpan E sid) (fun _ => false)).
Proof.
  intros HE. split; intros.
  - by apply lock_spec_cacheSpan.
  - by apply lock_spec_uncacheSpan.
Qed.

(** sysMap (lines 390-400) returns exactly when mmap answers (v, 0); it
    then has counted the statistic and made one mmap of v, in that order. *)
Theorem sysMap_ok O v n ss log u log' :
  sysMap O v n ss log = OOk u log' <->
  mmap_result O v n (Z.lor (_PROT_READ O) (_PROT_WRITE O))
    (Z.lor (Z.lor (_MAP_ANON O) (_MAP_FIXED O)) (_MAP_PRIVATE O)) (-1) 0 = (v, 0) /\
  log' = log ++ [CStatInc ss n;
                 CMmap v n (Z.lor (_PROT_READ O) (_PROT_WRITE O))
                   (Z.lor (Z.lor (_MAP_ANON O) (_MAP_FIXED O)) (_MAP_PRIVATE O)) (-1) 0].
Proof.
  unfold sysMap, mmap, os_bind, os_call, os_ret, os_throw.
  destruct (mmap_result _ _ _ _ _ _ _) as [p err].
  rewrite <-app_assoc. simpl.
  destruct (err =? _ENOMEM) eqn:E1; simpl.
  { split; [discriminate|]. intros [Hp _]. injection Hp as -> ->. discriminate. }
  destruct (on_solaris O && (err =? _sunosEAGAIN)) eqn:E2; simpl.
  { split; [discriminate|]. intros [Hp _]. injection Hp as -> ->.
    apply andb_true_iff in E2 as [_ E2]. discriminate. }
  destruct (p =? v) eqn:E3; destruct (err =? 0) eqn:E4; simpl;
    rewrite ?Z.eqb_eq, ?Z.eqb_neq in E3, E4; subst.
  1: { destruct u. split; [intros Hx; injection Hx as <-; done|]. intros [_ ->]. done. }
  all: split; [intros Hx; discriminate Hx|intros [Hp _]; injection Hp; intros; subst; lia].
Qed.

(** sysMap throws "runtime: out of memory" exactly when mmap fails with
    ENOMEM, or with EAGAIN on Solaris and illumos; elsewhere EAGAIN gives
    "runtime: cannot map pages in arena address space". *)
Theorem sysMap_out_of_memory O v n ss log p err :
  mmap_result O v n (Z.lor (_PROT_READ O) (_PROT_WRITE O))
    (Z.lor (Z.lor (_MAP_ANON O) (_MAP_FIXED O)) (_MAP_PRIVATE O)) (-1) 0 = (p, err) ->
  (sysMap O v n ss log = OThrow "runtime: out of memory" <->
   err = _ENOMEM \/ (on_solaris O = true /\ err = _sunosEAGAIN)) /\
  (on_solaris O = false -> err = _sunosEAGAIN ->
   sysMap O v n ss log = OThrow "runtime: cannot map pages in arena address space").
Proof.
  intros Hm. unfold sysMap, mmap, os_bind, os_call, os_ret, os_throw. rewrite Hm.
  split.
  - destruct (err =? _ENOMEM) eqn:E1; simpl.
    { apply Z.eqb_eq in E1. split; auto. }
    destruct (on_solaris O && (err =? _sunosEAGAIN)) eqn:E2; simpl.
    { apply andb_true_iff in E2 as [E2 E3]. apply Z.eqb_eq in E3. split; auto. }
    apply Z.eqb_neq in E1.
    split.
    + destruct (negb (p =? v) || negb (err =? 0)); discriminate.
    + intros [?|[Hs He]]; [done|]. rewrite Hs, He, Z.eqb_refl in E2. discriminate.
  - intros Hs ->. rewrite Hs. simpl. rewrite orb_true_r. reflexivity.
Qed.

(** sysReserve (lines 371-384) asks for MAP_NORESERVE (bit 6) exactly on
    Solaris and illumos, makes one mmap, and returns 0 when it fails and
    the mapped address otherwise. *)
Theorem sysReserve_noreserve O v n log :
  Z.testbit (_MAP_ANON O) 6 = false -> Z.testbit (_MAP_PRIVATE O) 6 = false ->
  exists flags,
    Z.testbit flags 6 = on_solaris O /\
    sysReserve O v n log =
      OOk (let '(p, err) := mmap_result O v n (_PROT_NONE O) flags (-1) 0 in
           if err =? 0 then p else 0)
          (log ++ [CMmap v n (_PROT_NONE O) flags (-1) 0]).
Proof.
  intros Ha Hp. unfold sysReserve, mmap, os_bind, os_call, os_ret.
  exists (if on_solaris O
          then Z.lor (Z.lor (_MAP_ANON O) (_MAP_PRIVATE O)) _sunosMAP_NORESERVE
          else Z.lor (_MAP_ANON O) (_MAP_PRIVATE O)).
  split.
  2: { destruct (mmap_result _ _ _ _ _ _ _) as [p err].
       destruct (err =? 0); reflexivity. }
  destruct (on_solaris O); rewrite !Z.lor_spec, ?Ha, ?Hp; reflexivity.
Qed.

(** ** Runs of the properties on concrete inputs *)

Lemma cacheSpan_span_in_empty_witness :
  exists st', cacheSpan test_env 1 (st48 1 1 4) = Ok (Some 1%nat) st' /\
    1%nat ∈ empty st' /\ 1%nat ∉ nonempty st'.
Proof.
  assert (H : exists st', cacheSpan test_env 1 (st48 1 1 4) = Ok (Some 1%nat) st')
    by (eexists; vm_compute; reflexivity).
  destruct H as [st' H]. exists st'. split; [exact H|].
  exact (cacheSpan_span_in_empty test_env (test_env_sweep_keeps true)
           test_env_nfi_keeps 1 (st48 1 1 4) 1 st' H).
Defined.

Lemma scan_nonempty_none_witness :
  scan_nonempty test_env 4 [1%nat] (st48 0 0 3) = Ok None (st48 0 0 3) /\
  Forall (fun sid => exists s, spans (st48 0 0 3) !! sid = Some s /\
                               sweepgen s = u32 (4 - 1)) [1%nat].
Proof.
  assert (H : scan_nonempty test_env 4 [1%nat] (st48 0 0 3) = Ok None (st48 0 0 3))
    by (vm_compute; reflexivity).
  split; [exact H|].
  exact (proj2 (scan_nonempty_none 4 [1%nat] test_env _ _ H)).
Defined.

Lemma scan_empty_exhausted_witness :
  scan_empty test_env 4 [1%nat] (st48e 169 0 4) = Ok Exhausted (st48e 169 0 4) /\
  st48e 169 0 4 = st48e 169 0 4.
Proof.
  assert (H : scan_empty test_env 4 [1%nat] (st48e 169 0 4)
              = Ok Exhausted (st48e 169 0 4))
    by (vm_compute; reflexivity).
  split; [exact H|].
  exact (scan_empty_exhausted test_env 4 [1%nat] _ _ H).
Defined.

Lemma init_cacheSpan_grows_witness :
  exists st',
    bind (mcentral_init 8) (fun _ => cacheSpan grow_env 1) (st48 0 0 4)
      = Ok (Some 1%nat) st' /\
    nonempty st' = [] /\ empty st' = [1%nat].
Proof.
  assert (H : exists st', bind (mcentral_init 8) (fun _ => cacheSpan grow_env 1)
                            (st48 0 0 4) = Ok (Some 1%nat) st')
    by (eexists; vm_compute; reflexivity).
  destruct H as [st' H]. exists st'. split; [exact H|].
  exact (init_cacheSpan_grows grow_env 8 0 (st48 0 0 4) (Some 1%nat) st'
           grow_env_deduct_keeps grow_env_alloc_keeps grow_env_init_keeps H).
Defined.

Lemma havespan_allocCache_witness :
  exists st', havespan test_env 8192 1 (st48 1 70 4) = Ok (Some 1%nat) st' /\
    spans st' !! 1%nat =
      Some (set_allocCache (span48 1 70 4)
              (Z.shiftr (refillAllocCache test_env (span48 1 70 4) (8 * (70 / 64)))
                        (70 mod 64))).
Proof.
  assert (H : exists st', havespan test_env 8192 1 (st48 1 70 4) = Ok (Some 1%nat) st')
    by (eexists; vm_compute; reflexivity).
  destruct H as [st' H]. exists st'. split; [exact H|].
  exact (havespan_allocCache test_env 8192 1 (st48 1 70 4) (span48 1 70 4) _ st'
           eq_refl H).
Defined.

Lemma uncacheSpan_full_stamps_witness :
  uncacheSpan test_env 1 (st48e 170 170 7) =
    Ok tt (with_spans (st48e 170 170 7)
             (<[1%nat := set_sweepgen (span48 170 170 7) 4]> (spans (st48e 170 170 7)))).
Proof.
  apply (uncacheSpan_full_stamps test_env 1 (st48e 170 170 7) (span48 170 170 7)).
  all: vm_compute; first [reflexivity | intros Hx; discriminate Hx].
Defined.

Lemma freeSpan_preserve_unlinked_throws_witness :
  freeSpan 1 true false (with_empty (st48e 0 0 4) [])
    = Throw "can't preserve unlinked span".
Proof.
  apply (freeSpan_preserve_unlinked_throws 1 false _ (span48 0 0 4)).
  1: reflexivity.
  1, 2: vm_compute; intros Hx; discriminate Hx.
  all: simpl; apply not_elem_of_nil.
Defined.

Lemma cacheSpan_uncacheSpan_lock_balanced_witness :
  env_locks test_env /\
  lock_spec false (cacheSpan test_env 2) (fun _ => false) /\
  lock_spec false (uncacheSpan test_env 1) (fun _ => false).
Proof.
  split; [exact test_env_locks|].
  destruct (cacheSpan_uncacheSpan_lock_balanced test_env test_env_locks) as [Hc Hu].
  split; [apply Hc|apply Hu].
Defined.

Lemma sysMap_out_of_memory_witness :
  mmap_result (const_os "illumos" (0, 11)) 4096 8192 (Z.lor 1 2)
    (Z.lor (Z.lor 4096 16) 2) (-1) 0 = (0, 11) /\
  sysMap (const_os "illumos" (0, 11)) 4096 8192 None []
    = OThrow "runtime: out of memory" /\
  sysMap (const_os "freebsd" (0, 11)) 4096 8192 None []
    = OThrow "runtime: cannot map pages in arena address space".
Proof.
  split; [reflexivity|]. split.
  - apply (proj2 (proj1 (sysMap_out_of_memory (const_os "illumos" (0, 11)) 4096 8192
                           None [] 0 11 eq_refl))).
    right. split; reflexivity.
  - apply (proj2 (sysMap_out_of_memory (const_os "freebsd" (0, 11)) 4096 8192
                    None [] 0 11 eq_refl)); reflexivity.
Defined.

Lemma freeSpan_lock_once_witness :
  exists st', freeSpan 1 false true (st48e 0 0 2) = Ok true st' /\
    trace st' = [ELock; ERemove EmptyL 1; EInsert NonemptyL 1; ERemove NonemptyL 1;
                 EUnlock; EHeapFree 1].
Proof.
  assert (H : exists st', freeSpan 1 false true (st48e 0 0 2) = Ok true st')
    by (eexists; vm_compute; reflexivity).
  destruct H as [st' H]. exists st'. split; [exact H|].
  destruct (proj2 (freeSpan_lock_once 1 false true (st48e 0 0 2) st' true H) eq_refl)
    as (t1 & t2 & Ht & _ & _ & _ & _ & Hb & _).
  rewrite Ht, (Hb eq_refl). simpl.
  assert (Ht' : trace st' = [ELock; ERemove EmptyL 1; EInsert NonemptyL 1;
                             ERemove NonemptyL 1; EUnlock; EHeapFree 1])
    by (revert H; vm_compute; intros H; injection H as <-; reflexivity).
  rewrite Ht, (Hb eq_refl) in Ht'. exact Ht'.
Defined.

Lemma sysReserve_noreserve_witness :
  Z.testbit 4096 6 = false /\ Z.testbit 2 6 = false /\
  exists flags,
    Z.testbit flags 6 = true /\
    sysReserve (const_os "solaris" (8192, 0)) 8192 4096 [] =
      OOk 8192 [CMmap 8192 4096 0 flags (-1) 0].
Proof.
  split; [reflexivity|]. split; [reflexivity|].
  exact (sysReserve_noreserve (const_os "solaris" (8192, 0)) 8192 4096 []
           eq_refl eq_refl).
Defined.
